(** * MTG Top 8 / Day 2 calculator: shallow embedding and verified properties

    The development embeds the computational core of three scripts:

    - [Day2]    : day2.js   (Day 2 calculator)
    - [Script]  : script.js (Top 8 calculator, record typed in by hand)
    - [Tracker] : the Top 8 calculator with the round-by-round tracker and
                  the OMW% heuristic (the second copy of script.js)

    Conventions of the embedding.

    - Integers that the scripts obtain through [parseInt(..) || 0] or by
      counting are values of [Z]; arithmetic on them is exact (all values
      are far below 2^53).
    - The OMW% heuristic works on fractional JavaScript numbers, and is
      embedded twice.  Module [Binary64] embeds [estimateOMW] over the
      binary64 numbers the script computes with (the primitive floats of
      the kernel): every property of the value of the estimate, its range
      and its dependence on the order of the results, is stated there.
      Module [Tracker] embeds the whole script with the estimate idealised
      to a [jsnum]: an exact rational, or one of the three special values
      that a division by zero can produce.  It carries the properties of
      the consumers of the estimate, which hold for every value it can
      take.
    - A value that may be [undefined], [null] or a number is a [jsval].
    - [for] loops are written with the combinators of section [Loops],
      defined by well-founded recursion on the number of iterations left;
      they are total, no fuel is involved. *)

From Equations Require Import Equations.
From stdpp Require Import list.
From Stdlib Require Import String ZArith QArith Qminmax List Lia Lqa Sorted Permutation.
From Stdlib Require Floats.
Import ListNotations.
Open Scope Z_scope.

(* ===================================================================== *)
(** ** JavaScript numbers used by the OMW% heuristic *)
(* ===================================================================== *)

Inductive jsnum : Type :=
| Fin (q : Q)
| PInf
| NInf
| NaN.

Inductive jsval : Type :=
| Undefined
| Null
| Num (x : jsnum).

Module JS.

Definition of_Z (z : Z) : jsnum := Fin (inject_Z z).

Definition neg (a : jsnum) : jsnum :=
  match a with
  | Fin q => Fin (- q)%Q
  | PInf => NInf
  | NInf => PInf
  | NaN => NaN
  end.

Definition add (a b : jsnum) : jsnum :=
  match a, b with
  | NaN, _ | _, NaN => NaN
  | Fin x, Fin y => Fin (x + y)%Q
  | PInf, NInf | NInf, PInf => NaN
  | PInf, _ | _, PInf => PInf
  | NInf, _ | _, NInf => NInf
  end.

Definition sub (a b : jsnum) : jsnum := add a (neg b).

(** Sign of a rational: its numerator decides. *)
Definition Qsgn (q : Q) : Z := Z.sgn (Qnum q).

(** [a / b]; a zero divisor gives [NaN] or an infinity. *)
Definition div (a b : jsnum) : jsnum :=
  match a, b with
  | NaN, _ | _, NaN => NaN
  | Fin x, Fin y =>
      if Qsgn y =? 0 then
        (if Qsgn x =? 0 then NaN else if 0 <? Qsgn x then PInf else NInf)
      else Fin (x / y)%Q
  | Fin _, (PInf | NInf) => Fin 0
  | (PInf | NInf), (PInf | NInf) => NaN
  | PInf, Fin y => if 0 <=? Qsgn y then PInf else NInf
  | NInf, Fin y => if 0 <=? Qsgn y then NInf else PInf
  end.

(** [a < b]; every comparison with [NaN] is false. *)
Definition lt (a b : jsnum) : bool :=
  match a, b with
  | NaN, _ | _, NaN => false
  | Fin x, Fin y => negb (Qle_bool y x)
  | NInf, NInf => false
  | NInf, _ => true
  | _, NInf => false
  | PInf, _ => false
  | Fin _, PInf => true
  end.

Definition gt (a b : jsnum) : bool := lt b a.

(** [Math.min] and [Math.max]: [NaN] if an argument is [NaN]. *)
Definition min (a b : jsnum) : jsnum :=
  match a, b with
  | NaN, _ | _, NaN => NaN
  | NInf, _ | _, NInf => NInf
  | PInf, y => y
  | x, PInf => x
  | Fin x, Fin y => Fin (Qmin x y)
  end.

Definition max (a b : jsnum) : jsnum :=
  match a, b with
  | NaN, _ | _, NaN => NaN
  | PInf, _ | _, PInf => PInf
  | NInf, y => y
  | x, NInf => x
  | Fin x, Fin y => Fin (Qmax x y)
  end.

End JS.

(* ===================================================================== *)
(** ** Loop combinators *)
(* ===================================================================== *)

Section Loops.
Context {St : Type}.

(** [for (var i = start; i >= 0; i--) s = body i s] *)
Equations? for_down (body : Z -> St -> St) (i : Z) (s : St) : St
  by wf (Z.to_nat (i + 1)) lt :=
  for_down body i s with Z_le_gt_dec 0 i => {
    | left _ := for_down body (i - 1) (body i s);
    | right _ := s }.
Proof. lia. Qed.

End Loops.

(** [var r = -1; for (var i = start; i <= hi; i++) { if (test i) { r = i; break; } }] *)
Equations? search_up (test : Z -> bool) (hi i : Z) : Z
  by wf (Z.to_nat (hi - i + 1)) lt :=
  search_up test hi i with Z_le_gt_dec i hi => {
    | left _ with test i => {
        | true := i;
        | false := search_up test hi (i + 1) };
    | right _ := -1 }.
Proof. lia. Qed.

(* ===================================================================== *)
(** ** day2.js *)
(* ===================================================================== *)

Record Scenario : Type := mkScenario
  { extraWins : Z; extraLosses : Z; extraDraws : Z }.

(** A [{ text: ..., class: ... }] object (status badge, verdict line). *)
Record Labelled : Type := mkLabelled { text : string; class : string }.

(** A [{ wins, losses, draws }] object of the all-records table. *)
Record TournamentRecord : Type := mkRecord
  { recWins : Z; recLosses : Z; recDraws : Z }.

Module Day2.

Definition getMatchPoints (wins draws : Z) : Z := wins * 3 + draws * 1.

(** Both loops push onto the end of [scenarios]. *)
Definition generateScenarios (remaining : Z) : list Scenario :=
  for_down (fun w scenarios =>
    for_down (fun d scenarios =>
      let l := remaining - w - d in
      scenarios ++ [ {| extraWins := w; extraLosses := l; extraDraws := d |} ])
      (remaining - w) scenarios)
    remaining [].

Inductive Verdict : Type :=
| AlreadyIn
| Eliminated
| DrawOut
| OneMoreWin
| NeedWins (minWins : Z) (restFree : bool)
| MustWinAll.

(** The values [calculate] derives before it picks the verdict. *)
Record Analysis : Type := mkAnalysis
  { remaining : Z;
    currentPoints : Z;
    maxPossiblePoints : Z;
    drawAllPoints : Z;
    alreadyIn : bool;
    minWinsNeeded : Z;
    canLoseRest : bool;
    verdict : Verdict }.

Definition analyse (totalRounds threshold currentWins currentLosses currentDraws : Z)
  : Analysis :=
  let currentPoints := getMatchPoints currentWins currentDraws in
  let roundsPlayed := currentWins + currentLosses + currentDraws in
  let remaining := totalRounds - roundsPlayed in
  let maxPossiblePoints := currentPoints + remaining * 3 in
  let drawAllPoints := currentPoints + remaining in
  let alreadyIn := currentPoints >=? threshold in
  let minWinsNeeded :=
    if negb alreadyIn then
      search_up (fun testW =>
                   let testPts := currentPoints + testW * 3 + (remaining - testW) * 1 in
                   testPts >=? threshold)
                remaining 0
    else -1 in
  let minWinsLoseRest :=
    if minWinsNeeded >=? 0 then currentPoints + minWinsNeeded * 3 else 0 in
  let canLoseRest := minWinsLoseRest >=? threshold in
  let verdict :=
    if alreadyIn then AlreadyIn
    else if maxPossiblePoints <? threshold then Eliminated
    else if drawAllPoints >=? threshold then DrawOut
    else if (minWinsNeeded =? 1) && canLoseRest then OneMoreWin
    else if (minWinsNeeded >=? 1) && (minWinsNeeded <=? remaining)
         then NeedWins minWinsNeeded canLoseRest
    else MustWinAll in
  mkAnalysis remaining currentPoints maxPossiblePoints drawAllPoints
             alreadyIn minWinsNeeded canLoseRest verdict.

(** [calculate]: the four validation alerts return early. *)
Definition calculate (totalRounds threshold currentWins currentLosses currentDraws : Z)
  : option Analysis :=
  let roundsPlayed := currentWins + currentLosses + currentDraws in
  if totalRounds <? 1 then None
  else if threshold <? 1 then None
  else if roundsPlayed >? totalRounds then None
  else if roundsPlayed =? 0 then None
  else Some (analyse totalRounds threshold currentWins currentLosses currentDraws).

Definition getDay2Status (points threshold : Z) : Labelled :=
  let diff := points - threshold in
  if diff >=? 3 then mkLabelled "Safe" "status-safe"
  else if diff >=? 0 then mkLabelled "Day 2" "status-likely"
  else if diff >=? -3 then mkLabelled "Close" "status-possible"
  else if diff >=? -6 then mkLabelled "Tough" "status-unlikely"
  else mkLabelled "Eliminated" "status-out".

(** The three texts [updateThresholdHint] can show. *)
Inductive ThresholdHint : Type :=
| HintRecord (threshold winsNeeded lossesAllowed : Z)  (* "Need T points (W-L or better)" *)
| HintAtLeast (threshold : Z)                          (* "Need at least T match points ..." *)
| HintNone.                                            (* empty text *)

(** [Math.ceil(threshold / 3)] on an integer. *)
Definition ceil_third (threshold : Z) : Z := - ((- threshold) / 3).

Definition updateThresholdHint (threshold totalRounds : Z) : ThresholdHint :=
  if (threshold >? 0) && (totalRounds >? 0) then
    let winsNeeded := ceil_third threshold in
    let lossesAllowed := totalRounds - winsNeeded in
    if (lossesAllowed >=? 0) && (winsNeeded * 3 =? threshold)
    then HintRecord threshold winsNeeded lossesAllowed
    else HintAtLeast threshold
  else HintNone.

(** One row of the scenarios table built by [calculate]. *)
Record ScenarioRow : Type := mkRow
  { finalW : Z; finalL : Z; finalD : Z;
    pts : Z;
    status : Labelled;
    isAllDraw : bool;
    isAllWin : bool;
    makesDay2 : bool }.

Definition scenarioRow (threshold currentWins currentLosses currentDraws remaining : Z)
  (sc : Scenario) : ScenarioRow :=
  let finalW := currentWins + extraWins sc in
  let finalL := currentLosses + extraLosses sc in
  let finalD := currentDraws + extraDraws sc in
  let pts := getMatchPoints finalW finalD in
  let status := getDay2Status pts threshold in
  let isAllDraw :=
    (extraDraws sc =? remaining) && (extraWins sc =? 0) && (extraLosses sc =? 0) in
  let isAllWin :=
    (extraWins sc =? remaining) && (extraLosses sc =? 0) && (extraDraws sc =? 0) in
  let makesDay2 := pts >=? threshold in
  mkRow finalW finalL finalD pts status isAllDraw isAllWin makesDay2.

(** The rows appended by [scenarios.forEach] in [calculate]. *)
Definition scenarioRows (totalRounds threshold currentWins currentLosses currentDraws : Z)
  : list ScenarioRow :=
  let roundsPlayed := currentWins + currentLosses + currentDraws in
  let remaining := totalRounds - roundsPlayed in
  map (scenarioRow threshold currentWins currentLosses currentDraws remaining)
      (generateScenarios remaining).

End Day2.

(* ===================================================================== *)
(** ** script.js *)
(* ===================================================================== *)

(** The five branches of the strategy text in [calculate]. *)
Inductive StrategyVerdict : Type :=
| SafeToDraw            (* drawAllProb >= 90 *)
| LikelySafe            (* drawAllProb >= 60 *)
| WinAtLeast (n : Z)    (* 0 < minWinsNeeded <= remaining *)
| EliminationLikely     (* winAllProb < 25 *)
| MustWin.              (* otherwise *)

Record Strategy : Type := mkStrategy
  { sRemaining : Z;
    drawAllProb : Z;
    winAllProb : Z;
    sMinWinsNeeded : Z;
    strategyVerdict : StrategyVerdict }.

(** What [calculate] does with its inputs. *)
Inductive Outcome : Type :=
| Alerted                             (* an alert was shown, nothing computed *)
| Shown (strategy : option Strategy). (* results shown; strategy card if in progress *)

Module Script.

(** [Math.ceil(Math.log2(players))] on an integer [players >= 2], with the
    logarithm taken exactly.  The script takes it in binary64, where the
    logarithm of a number just above a large power of two rounds down to
    the exponent: the binary64 number nearest to the logarithm of
    [2^49 + 1] is 49, so that the script returns 49 rounds there and this
    definition 50.  The two agree on the player counts the calculator is
    written for (its threshold table ends at 1024 players). *)
Definition getRounds (players : Z) : Z :=
  if players <? 2 then 0 else Z.log2_up players.

Definition getMatchPoints (wins draws : Z) : Z := wins * 3 + draws * 1.

Definition thresholdPoints (numPlayers totalRounds : Z) : Z :=
  if numPlayers <=? 16 then 9
  else if numPlayers <=? 32 then 12
  else if numPlayers <=? 64 then 15
  else if numPlayers <=? 128 then 16
  else if numPlayers <=? 256 then 18
  else if numPlayers <=? 512 then 21
  else if numPlayers <=? 1024 then 24
  else (totalRounds - 2) * 3.

Definition estimateTop8Probability
  (wins losses draws totalRounds numPlayers : Z) : Z :=
  let points := getMatchPoints wins draws in
  if numPlayers <=? 8 then 100
  else
    let thresholdPoints := thresholdPoints numPlayers totalRounds in
    let diff := points - thresholdPoints in
    if diff >=? 6 then 100
    else if diff >=? 3 then 98
    else if diff >=? 1 then 92
    else if diff =? 0 then 75
    else if diff =? -1 then 50
    else if diff =? -2 then 25
    else if diff =? -3 then 10
    else if diff =? -4 then 3
    else if diff =? -5 then 1
    else 0.

Definition generateRemainingScenarios (remaining : Z) : list Scenario :=
  for_down (fun w scenarios =>
    for_down (fun d scenarios =>
      let l := remaining - w - d in
      scenarios ++ [ {| extraWins := w; extraLosses := l; extraDraws := d |} ])
      (remaining - w) scenarios)
    remaining [].

(** The strategy section of [calculate] (in-progress mode only). *)
Definition strategy
  (numPlayers totalRounds currentWins currentLosses currentDraws : Z) : Strategy :=
  let roundsPlayed := currentWins + currentLosses + currentDraws in
  let remaining := totalRounds - roundsPlayed in
  let drawAllFinalW := currentWins in
  let drawAllFinalL := currentLosses in
  let drawAllFinalD := currentDraws + remaining in
  let drawAllProb :=
    estimateTop8Probability drawAllFinalW drawAllFinalL drawAllFinalD
                            totalRounds numPlayers in
  let winAllFinalW := currentWins + remaining in
  let winAllFinalL := currentLosses in
  let winAllFinalD := currentDraws in
  let winAllProb :=
    estimateTop8Probability winAllFinalW winAllFinalL winAllFinalD
                            totalRounds numPlayers in
  let minWinsNeeded :=
    search_up (fun testW =>
                 let testDraws := remaining - testW in
                 let testProb :=
                   estimateTop8Probability (currentWins + testW) currentLosses
                                           (currentDraws + testDraws)
                                           totalRounds numPlayers in
                 testProb >=? 75)
              remaining 0 in
  let verdict :=
    if drawAllProb >=? 90 then SafeToDraw
    else if drawAllProb >=? 60 then LikelySafe
    else if (minWinsNeeded >? 0) && (minWinsNeeded <=? remaining)
         then WinAtLeast minWinsNeeded
    else if winAllProb <? 25 then EliminationLikely
    else MustWin in
  mkStrategy remaining drawAllProb winAllProb minWinsNeeded verdict.

Definition calculate
  (numPlayers currentWins currentLosses currentDraws : Z) (isInProgress : bool)
  : Outcome :=
  if numPlayers <? 8 then Alerted
  else
    let totalRounds := getRounds numPlayers in
    let roundsPlayed := currentWins + currentLosses + currentDraws in
    if isInProgress then
      if roundsPlayed >=? totalRounds then Alerted
      else if roundsPlayed =? 0 then Alerted
      else Shown (Some (strategy numPlayers totalRounds
                                 currentWins currentLosses currentDraws))
    else
      if roundsPlayed >? totalRounds then Alerted
      else Shown None.

Definition generateAllRecords (rounds : Z) : list TournamentRecord :=
  for_down (fun w records =>
    for_down (fun d records =>
      let l := rounds - w - d in
      records ++ [ {| recWins := w; recLosses := l; recDraws := d |} ])
      (rounds - w) records)
    rounds [].

Definition getProbClass (prob : Z) : string :=
  if prob >=? 85 then "prob-high"
  else if prob >=? 60 then "prob-likely"
  else if prob >=? 30 then "prob-medium"
  else if prob >=? 5 then "prob-low"
  else "prob-none".

Definition getStatusInfo (prob : Z) : Labelled :=
  if prob >=? 90 then mkLabelled "Locked In" "status-safe"
  else if prob >=? 60 then mkLabelled "Likely" "status-likely"
  else if prob >=? 25 then mkLabelled "Possible" "status-possible"
  else if prob >=? 3 then mkLabelled "Unlikely" "status-unlikely"
  else mkLabelled "Out" "status-out".

Definition getVerdict (prob : Z) : Labelled :=
  if prob >=? 90
  then mkLabelled "You are almost certainly making Top 8!" "verdict-safe"
  else if prob >=? 60
  then mkLabelled "Good chances! Keep it up to lock in Top 8." "verdict-likely"
  else if prob >=? 25
  then mkLabelled "You have a shot, but tiebreakers will matter." "verdict-possible"
  else if prob >=? 3
  then mkLabelled "It will be tough, but not impossible." "verdict-unlikely"
  else mkLabelled "Unfortunately, with this record the chances are very low."
                  "verdict-eliminated".

(** One row of the full thresholds table built by [calculate]. *)
Definition thresholdRow
  (numPlayers totalRounds currentWins currentLosses currentDraws : Z)
  (rec : TournamentRecord) : Z * Z * Labelled * bool :=
  let pts := getMatchPoints (recWins rec) (recDraws rec) in
  let prob := estimateTop8Probability (recWins rec) (recLosses rec) (recDraws rec)
                                      totalRounds numPlayers in
  let status := getStatusInfo prob in
  let isCurrent :=
    (recWins rec =? currentWins) && (recLosses rec =? currentLosses)
    && (recDraws rec =? currentDraws) in
  (pts, prob, status, isCurrent).

End Script.

(* ===================================================================== *)
(** ** The Top 8 calculator with round tracker and OMW% estimate *)
(* ===================================================================== *)

Inductive RoundResult : Type := W | L | D.

(** A slot of the [roundResults] array: a result, [null], or a hole left by
    a write past the end of the array (reads as [undefined]). *)
Inductive cell : Type :=
| Res (r : RoundResult)
| Empty                  (* null *)
| Hole.                  (* undefined *)

Module Tracker.

(** As [Script.getRounds]: exact logarithm, the script's value up to the
    player counts where binary64 rounds the logarithm down. *)
Definition getRounds (players : Z) : Z :=
  if players <? 2 then 0 else Z.log2_up players.

Definition getMatchPoints (wins draws : Z) : Z := wins * 3 + draws * 1.

(** [r !== null] *)
Definition not_null (c : cell) : bool :=
  match c with Empty => false | _ => true end.

(** [a.filter(test)]: the callback is not called on the holes of the
    array, which are left out of the result. *)
Definition array_filter (test : cell -> bool) (a : list cell) : list cell :=
  List.filter (fun c => match c with Hole => false | _ => test c end) a.

(** The [for (i ...)] loop of [estimateOMW] over the slots of [results],
    carrying [cumWins], [cumLosses] and the array [opponentMWs].  The
    numbers are idealised to exact rationals; [Binary64.omw_walk] is the
    same loop over binary64. *)
Fixpoint omw_walk (results : list cell) (totalRounds : Z)
         (cumWins cumLosses : Z) (opponentMWs : list jsnum) : list jsnum :=
  match results with
  | [] => opponentMWs
  | c :: rest =>
      let bracketStrength :=
        JS.add (Fin 0.5)
               (JS.div (JS.of_Z (cumWins - cumLosses))
                       (JS.of_Z (2 * totalRounds))) in
      let clamp x := JS.max (Fin 0.33) (JS.min (Fin 1) x) in
      match c with
      | Empty =>                                   (* continue *)
          omw_walk rest totalRounds cumWins cumLosses opponentMWs
      | Res W =>
          let opponentMW := JS.sub bracketStrength (Fin 0.04) in
          omw_walk rest totalRounds (cumWins + 1) cumLosses
                   (opponentMWs ++ [clamp opponentMW])
      | Res L =>
          let opponentMW := JS.add bracketStrength (Fin 0.04) in
          omw_walk rest totalRounds cumWins (cumLosses + 1)
                   (opponentMWs ++ [clamp opponentMW])
      | Res D | Hole =>                            (* any other value *)
          let opponentMW := bracketStrength in
          omw_walk rest totalRounds cumWins cumLosses
                   (opponentMWs ++ [clamp opponentMW])
      end
  end.

(** [results] is always an array here ([roundResults] starts as [[]]). *)
Definition estimateOMW (results : list cell) (totalRounds : Z) : jsval :=
  if (length results =? 0)%nat then Null
  else
    let filledResults := array_filter not_null results in
    if (length filledResults =? 0)%nat then Null
    else
      let opponentMWs := omw_walk results totalRounds 0 0 [] in
      let sum := fold_left JS.add opponentMWs (Fin 0) in
      Num (JS.div sum (JS.of_Z (Z.of_nat (length opponentMWs)))).

Definition thresholdPoints (numPlayers totalRounds : Z) : Z :=
  if numPlayers <=? 16 then 9
  else if numPlayers <=? 32 then 12
  else if numPlayers <=? 64 then 15
  else if numPlayers <=? 128 then 16
  else if numPlayers <=? 256 then 18
  else if numPlayers <=? 512 then 21
  else if numPlayers <=? 1024 then 24
  else (totalRounds - 2) * 3.

(** The adjustment chosen inside the tiebreaker zone. *)
Definition omwAdjustment (omwEstimate : jsnum) (diff : Z) : Z :=
  if JS.gt omwEstimate (Fin 0.55) then
    if diff =? 0 then 10 else if diff =? -1 then 10 else 5
  else if JS.lt omwEstimate (Fin 0.40) then
    if diff =? 0 then -15 else if diff =? -1 then -10 else -8
  else if JS.gt omwEstimate (Fin 0.50) then
    if diff =? 0 then 5 else if diff =? -1 then 4 else 2
  else if JS.lt omwEstimate (Fin 0.45) then
    if diff =? 0 then -8 else if diff =? -1 then -5 else -3
  else 0.

Definition estimateTop8Probability
  (wins losses draws totalRounds numPlayers : Z) (omwEstimate : jsval) : Z :=
  let points := getMatchPoints wins draws in
  if numPlayers <=? 8 then 100
  else
    let thresholdPoints := thresholdPoints numPlayers totalRounds in
    let diff := points - thresholdPoints in
    let baseProb :=
      if diff >=? 6 then 100
      else if diff >=? 3 then 98
      else if diff >=? 1 then 92
      else if diff =? 0 then 75
      else if diff =? -1 then 50
      else if diff =? -2 then 25
      else if diff =? -3 then 10
      else if diff =? -4 then 3
      else if diff =? -5 then 1
      else 0 in
    match omwEstimate with
    | Num omw =>
        if (diff >=? -2) && (diff <=? 0) then
          let adjustment := omwAdjustment omw diff in
          Z.max 0 (Z.min 100 (baseProb + adjustment))
        else baseProb
    | Undefined | Null => baseProb
    end.

Definition generateRemainingScenarios (remaining : Z) : list Scenario :=
  for_down (fun w scenarios =>
    for_down (fun d scenarios =>
      let l := remaining - w - d in
      scenarios ++ [ {| extraWins := w; extraLosses := l; extraDraws := d |} ])
      (remaining - w) scenarios)
    remaining [].

(** *** Round tracker state and its handlers *)

(** [roundResults] together with the number typed into the players field
    ([parseInt(playersInput.value) || 0]). *)
Record TrackerState : Type := mkTracker
  { roundResults : list cell; players : Z }.

(** [a[i] = v] on a JavaScript array: a write past the end extends the
    array and leaves holes. *)
Definition array_set (a : list cell) (i : nat) (v : cell) : list cell :=
  if (i <? length a)%nat then <[i := v]> a
  else a ++ replicate (i - length a) Hole ++ [v].

(** The resizing part of [buildRoundTracker]: push [null] while too
    short, pop while too long; nothing happens when [players < 2]. *)
Definition buildRoundTracker (st : TrackerState) : TrackerState :=
  if players st <? 2 then st
  else
    let totalRounds := Z.to_nat (getRounds (players st)) in
    mkTracker (resize totalRounds Empty (roundResults st)) (players st).

Definition onRoundBtnClick (st : TrackerState) (round : nat) (result : RoundResult)
  : TrackerState :=
  buildRoundTracker
    (mkTracker (array_set (roundResults st) round (Res result)) (players st)).

(** [for (var i = round; i < roundResults.length; i++) roundResults[i] = null] *)
Definition onRoundClear (st : TrackerState) (round : nat) : TrackerState :=
  let n := length (roundResults st) in
  buildRoundTracker
    (mkTracker
       (fold_left (fun a i => array_set a i Empty) (seq round (n - round))
                  (roundResults st))
       (players st)).

(** The row of round [r] is not marked [round-disabled]. *)
Definition enabled (a : list cell) (r : nat) : bool :=
  (r =? 0)%nat
  || match a !! (r - 1)%nat with Some c => not_null c | None => true end
  || match a !! r with Some c => not_null c | None => true end.

Definition getRecordFromTracker (a : list cell) : Z * Z * Z :=
  fold_left (fun '(w, l, d) c =>
               match c with
               | Res W => (w + 1, l, d)
               | Res L => (w, l + 1, d)
               | Res D => (w, l, d + 1)
               | _ => (w, l, d)
               end) a (0, 0, 0).

(** *** Strategy section of [calculate] *)

Definition strategy
  (numPlayers totalRounds currentWins currentLosses currentDraws : Z)
  (roundResults : list cell) : Strategy :=
  let roundsPlayed := currentWins + currentLosses + currentDraws in
  let remaining := totalRounds - roundsPlayed in
  let omwEstimate := estimateOMW roundResults totalRounds in
  let drawAllFinalW := currentWins in
  let drawAllFinalL := currentLosses in
  let drawAllFinalD := currentDraws + remaining in
  let drawAllProb :=
    estimateTop8Probability drawAllFinalW drawAllFinalL drawAllFinalD
                            totalRounds numPlayers omwEstimate in
  let winAllFinalW := currentWins + remaining in
  let winAllFinalL := currentLosses in
  let winAllFinalD := currentDraws in
  let winAllProb :=
    estimateTop8Probability winAllFinalW winAllFinalL winAllFinalD
                            totalRounds numPlayers omwEstimate in
  let minWinsNeeded :=
    search_up (fun testW =>
                 let testDraws := remaining - testW in
                 let testProb :=
                   estimateTop8Probability (currentWins + testW) currentLosses
                                           (currentDraws + testDraws)
                                           totalRounds numPlayers omwEstimate in
                 testProb >=? 75)
              remaining 0 in
  let verdict :=
    if drawAllProb >=? 90 then SafeToDraw
    else if drawAllProb >=? 60 then LikelySafe
    else if (minWinsNeeded >? 0) && (minWinsNeeded <=? remaining)
         then WinAtLeast minWinsNeeded
    else if winAllProb <? 25 then EliminationLikely
    else MustWin in
  mkStrategy remaining drawAllProb winAllProb minWinsNeeded verdict.

Definition calculate
  (numPlayers currentWins currentLosses currentDraws : Z) (isInProgress : bool)
  (roundResults : list cell) : Outcome :=
  if numPlayers <? 8 then Alerted
  else
    let totalRounds := getRounds numPlayers in
    let roundsPlayed := currentWins + currentLosses + currentDraws in
    if isInProgress then
      if roundsPlayed >=? totalRounds then Alerted
      else if roundsPlayed =? 0 then Alerted
      else Shown (Some (strategy numPlayers totalRounds
                                 currentWins currentLosses currentDraws
                                 roundResults))
    else
      if roundsPlayed >? totalRounds then Alerted
      else Shown None.

Definition generateAllRecords (rounds : Z) : list TournamentRecord :=
  for_down (fun w records =>
    for_down (fun d records =>
      let l := rounds - w - d in
      records ++ [ {| recWins := w; recLosses := l; recDraws := d |} ])
      (rounds - w) records)
    rounds [].

Definition getProbClass (prob : Z) : string :=
  if prob >=? 85 then "prob-high"
  else if prob >=? 60 then "prob-likely"
  else if prob >=? 30 then "prob-medium"
  else if prob >=? 5 then "prob-low"
  else "prob-none".

Definition getStatusInfo (prob : Z) : Labelled :=
  if prob >=? 90 then mkLabelled "Locked In" "status-safe"
  else if prob >=? 60 then mkLabelled "Likely" "status-likely"
  else if prob >=? 25 then mkLabelled "Possible" "status-possible"
  else if prob >=? 3 then mkLabelled "Unlikely" "status-unlikely"
  else mkLabelled "Out" "status-out".

Definition getVerdict (prob : Z) : Labelled :=
  if prob >=? 90
  then mkLabelled "You are almost certainly making Top 8!" "verdict-safe"
  else if prob >=? 60
  then mkLabelled "Good chances! Keep it up to lock in Top 8." "verdict-likely"
  else if prob >=? 25
  then mkLabelled "You have a shot, but tiebreakers will matter." "verdict-possible"
  else if prob >=? 3
  then mkLabelled "It will be tough, but not impossible." "verdict-unlikely"
  else mkLabelled "Unfortunately, with this record the chances are very low."
                  "verdict-eliminated".

(** One row of the remaining-rounds table built by [calculate]. *)
Record ScenarioRow : Type := mkRow
  { finalW : Z; finalL : Z; finalD : Z;
    pts : Z;
    prob : Z;
    probClass : string;
    status : Labelled;
    isAllDraw : bool;
    isAllWin : bool }.

Definition scenarioRow
  (numPlayers totalRounds currentWins currentLosses currentDraws remaining : Z)
  (omwEstimate : jsval) (sc : Scenario) : ScenarioRow :=
  let finalW := currentWins + extraWins sc in
  let finalL := currentLosses + extraLosses sc in
  let finalD := currentDraws + extraDraws sc in
  let pts := getMatchPoints finalW finalD in
  let prob := estimateTop8Probability finalW finalL finalD totalRounds numPlayers
                                      omwEstimate in
  let probClass := getProbClass prob in
  let status := getStatusInfo prob in
  let isAllDraw :=
    (extraDraws sc =? remaining) && (extraWins sc =? 0) && (extraLosses sc =? 0) in
  let isAllWin :=
    (extraWins sc =? remaining) && (extraLosses sc =? 0) && (extraDraws sc =? 0) in
  mkRow finalW finalL finalD pts prob probClass status isAllDraw isAllWin.

(** The rows appended by [scenarios.forEach] in the strategy section. *)
Definition scenarioRows
  (numPlayers totalRounds currentWins currentLosses currentDraws : Z)
  (roundResults : list cell) : list ScenarioRow :=
  let roundsPlayed := currentWins + currentLosses + currentDraws in
  let remaining := totalRounds - roundsPlayed in
  let omwEstimate := estimateOMW roundResults totalRounds in
  map (scenarioRow numPlayers totalRounds currentWins currentLosses currentDraws
                   remaining omwEstimate)
      (generateRemainingScenarios remaining).

End Tracker.

(* ===================================================================== *)
(** ** The OMW% estimate over binary64 *)
(* ===================================================================== *)

(** [estimateOMW] of the tracker copy with JavaScript numbers as they
    are: IEEE 754 binary64, round to nearest even.  [0.33], [0.04] and
    [0.5] denote the binary64 numbers nearest to these decimals, as the
    literals of the script do. *)
Module Binary64.
Import PrimFloat.
#[local] Set Warnings "-inexact-float".

(** An integer as a number (exact below 2^53 in absolute value). *)
Definition of_int (z : Z) : float :=
  match z with
  | Z0 => 0
  | Zpos _ => of_uint63 (Uint63.of_Z z)
  | Zneg p => - of_uint63 (Uint63.of_Z (Zpos p))
  end%float.

(** [Math.min] and [Math.max] of two numbers: [NaN] if an argument is
    [NaN], and [-0] counts as smaller than [+0]. *)
Definition js_min (a b : float) : float :=
  if is_nan a || is_nan b then nan
  else if (a <? b)%float then a
  else if (b <? a)%float then b
  else if get_sign a then a else b.

Definition js_max (a b : float) : float :=
  if is_nan a || is_nan b then nan
  else if (b <? a)%float then a
  else if (a <? b)%float then b
  else if get_sign a then b else a.

(** The [for (i ...)] loop of [estimateOMW]; [cumWins++] adds 1. *)
Fixpoint omw_walk (results : list cell) (totalRounds cumWins cumLosses : float)
         (opponentMWs : list float) : list float :=
  match results with
  | [] => opponentMWs
  | c :: rest =>
      let bracketStrength :=
        (0.5 + (cumWins - cumLosses) / (2 * totalRounds))%float in
      let clamp x := js_max 0.33 (js_min 1 x) in
      match c with
      | Empty =>                                   (* continue *)
          omw_walk rest totalRounds cumWins cumLosses opponentMWs
      | Res W =>
          let opponentMW := (bracketStrength - 0.04)%float in
          omw_walk rest totalRounds (cumWins + 1)%float cumLosses
                   (opponentMWs ++ [clamp opponentMW])
      | Res L =>
          let opponentMW := (bracketStrength + 0.04)%float in
          omw_walk rest totalRounds cumWins (cumLosses + 1)%float
                   (opponentMWs ++ [clamp opponentMW])
      | Res D | Hole =>                            (* any other value *)
          let opponentMW := bracketStrength in
          omw_walk rest totalRounds cumWins cumLosses
                   (opponentMWs ++ [clamp opponentMW])
      end
  end.

(** [None] stands for the [null] the function returns. *)
Definition estimateOMW (results : list cell) (totalRounds : float) : option float :=
  if (length results =? 0)%nat then None
  else
    let filledResults := Tracker.array_filter Tracker.not_null results in
    if (length filledResults =? 0)%nat then None
    else
      let opponentMWs := omw_walk results totalRounds 0 0 [] in
      let sum := fold_left add opponentMWs 0%float in
      Some (sum / of_int (Z.of_nat (length opponentMWs)))%float.

End Binary64.

(* ===================================================================== *)
(** ** Specification-side definitions *)
(* ===================================================================== *)

(** The countdown [k-1, k-2, ..., 0]: the values a descending loop visits. *)
Fixpoint countdown (k : nat) : list Z :=
  match k with
  | O => []
  | S k' => Z.of_nat k' :: countdown k'
  end.

(** Listing order of the scenario table: more wins first; with equal wins,
    more draws first. *)
Definition listed_before (a b : Scenario) : Prop :=
  extraWins a > extraWins b
  \/ (extraWins a = extraWins b /\ extraDraws a > extraDraws b).

Definition valid_scenario (remaining : Z) (s : Scenario) : Prop :=
  extraWins s + extraLosses s + extraDraws s = remaining
  /\ 0 <= extraWins s /\ 0 <= extraLosses s /\ 0 <= extraDraws s.

(** The contract of the scenario enumerator for [remaining] rounds. *)
Record enumeration_contract (remaining : Z) (l : list Scenario) : Prop :=
  { ec_length : Z.of_nat (length l) = (remaining + 1) * (remaining + 2) / 2;
    ec_valid : Forall (valid_scenario remaining) l;
    ec_complete : forall s, valid_scenario remaining s -> In s l;
    ec_nodup : NoDup l;
    ec_order : StronglySorted listed_before l;
    ec_first : hd_error l = Some (mkScenario remaining 0 0);
    ec_last : last l (mkScenario 0 0 0) = mkScenario 0 remaining 0 }.

(** Closed form of the enumerator: one row per number of wins. *)
Definition scenario_row (remaining w : Z) : list Scenario :=
  map (fun d => mkScenario w (remaining - w - d) d)
      (countdown (Z.to_nat (remaining - w + 1))).

Definition scenario_table (remaining : Z) : list Scenario :=
  flat_map (scenario_row remaining) (countdown (Z.to_nat (remaining + 1))).

(** *** The Top 8 tables as the specification words them *)

(** Player-count buckets: (largest player count of the bucket, points). *)
Definition threshold_rows : list (Z * Z) :=
  [(16, 9); (32, 12); (64, 15); (128, 16); (256, 18); (512, 21); (1024, 24)].

(** Rows "diff >= bound" and rows "diff == value" of the diff table. *)
Definition diff_rows_at_least : list (Z * Z) := [(6, 100); (3, 98); (1, 92)].
Definition diff_rows_exact : list (Z * Z) :=
  [(0, 75); (-1, 50); (-2, 25); (-3, 10); (-4, 3); (-5, 1)].

(** First row whose test accepts the key, [otherwise] if none does. *)
Fixpoint first_row (test : Z -> Z -> bool) (rows : list (Z * Z)) (key otherwise : Z) : Z :=
  match rows with
  | [] => otherwise
  | (bound, value) :: rest =>
      if test key bound then value else first_row test rest key otherwise
  end.

Definition spec_thresholdPoints (numPlayers totalRounds : Z) : Z :=
  first_row Z.leb threshold_rows numPlayers ((totalRounds - 2) * 3).

Definition spec_diffProbability (diff : Z) : Z :=
  first_row Z.geb diff_rows_at_least diff
            (first_row Z.eqb diff_rows_exact diff 0).

Definition spec_top8Probability (wins losses draws totalRounds numPlayers : Z) : Z :=
  if numPlayers <=? 8 then 100
  else spec_diffProbability
         ((wins * 3 + draws) - spec_thresholdPoints numPlayers totalRounds).

(** The points difference that [estimateTop8Probability] compares to the
    tiebreaker zone. *)
Definition top8_diff (wins draws totalRounds numPlayers : Z) : Z :=
  Tracker.getMatchPoints wins draws - Tracker.thresholdPoints numPlayers totalRounds.

(** *** The strategy verdict as the specification words it *)

(** [m] is the result of the ascending search for the fewest wins whose
    probability reaches 75, [-1] when no number of wins does. *)
Definition min_wins_result (prob : Z -> Z) (remaining m : Z) : Prop :=
  (m = -1 /\ forall x, 0 <= x <= remaining -> prob x < 75)
  \/ (0 <= m <= remaining /\ 75 <= prob m /\ forall x, 0 <= x < m -> prob x < 75).

(** First-match-wins selection of the verdict. *)
Definition verdict_cascade (drawAll winAll m remaining : Z) (v : StrategyVerdict) : Prop :=
  (90 <= drawAll /\ v = SafeToDraw)
  \/ (60 <= drawAll < 90 /\ v = LikelySafe)
  \/ (drawAll < 60 /\ 0 < m <= remaining /\ v = WinAtLeast m)
  \/ (drawAll < 60 /\ ~ (0 < m <= remaining) /\ winAll < 25 /\ v = EliminationLikely)
  \/ (drawAll < 60 /\ ~ (0 < m <= remaining) /\ 25 <= winAll /\ v = MustWin).

(** What the strategy card must satisfy for a record with [remaining]
    rounds to go, where [prob wins draws] is the estimator at the fixed
    tournament and OMW% estimate. *)
Definition strategy_contract
  (prob : Z -> Z -> Z) (currentWins currentDraws remaining : Z) (st : Strategy) : Prop :=
  sRemaining st = remaining
  /\ drawAllProb st = prob currentWins (currentDraws + remaining)
  /\ winAllProb st = prob (currentWins + remaining) currentDraws
  /\ min_wins_result (fun x => prob (currentWins + x) (currentDraws + (remaining - x)))
                     remaining (sMinWinsNeeded st)
  /\ verdict_cascade (drawAllProb st) (winAllProb st) (sMinWinsNeeded st) remaining
                     (strategyVerdict st).

(** *** The OMW% estimate in the words of the specification *)

(** The results entered so far, without the unplayed rounds. *)
Fixpoint played (results : list cell) : list RoundResult :=
  match results with
  | [] => []
  | Res r :: rest => r :: played rest
  | _ :: rest => played rest
  end.



Module OMWSpec.
Import PrimFloat.
#[local] Set Warnings "-inexact-float".

Definition floor : float := 0.33.
Definition ceiling : float := 1.



Definition clamp (x : float) : float :=
  Binary64.js_max floor (Binary64.js_min ceiling x).

Definition bracket (totalRounds cumWins cumLosses : float) : float :=
  (0.5 + (cumWins - cumLosses) / (2 * totalRounds))%float.

(** The opponent estimate of one played round, and the win and loss
    counts after it. *)
Definition round_estimate (totalRounds cumWins cumLosses : float) (r : RoundResult)
  : float * float * float :=
  let bracketStrength := bracket totalRounds cumWins cumLosses in
  match r with
  | W => (clamp (bracketStrength - 0.04), cumWins + 1, cumLosses)
  | L => (clamp (bracketStrength + 0.04), cumWins, cumLosses + 1)
  | D => (clamp bracketStrength, cumWins, cumLosses)
  end%float.

(** Per-round opponent estimates, in round order, of the rounds that are
    not [null]; [cumWins] and [cumLosses] count the earlier wins and
    losses. *)
Fixpoint opponent_estimates (results : list cell) (totalRounds cumWins cumLosses : float)
  : list float :=
  match results with
  | [] => []
  | Empty :: rest => opponent_estimates rest totalRounds cumWins cumLosses
  | Res r :: rest =>
      let '(v, wins, losses) := round_estimate totalRounds cumWins cumLosses r in
      v :: opponent_estimates rest totalRounds wins losses
  | Hole :: rest =>
      clamp (bracket totalRounds cumWins cumLosses)
      :: opponent_estimates rest totalRounds cumWins cumLosses
  end.



(** **** Exhaustive evaluation over the sequences of a tournament *)








(** Loss, Win gives a strictly lower estimate than Win, Loss. *)
Definition pair_checked (k : nat) : bool :=
  match Binary64.estimateOMW [Res L; Res W] (Binary64.of_int (Z.of_nat k)),
        Binary64.estimateOMW [Res W; Res L] (Binary64.of_int (Z.of_nat k)) with
  | Some x, Some y => (x <? y)%float
  | _, _ => false
  end.

End OMWSpec.


(** *** The round tracker invariant *)

Definition unplayed (c : cell) : bool := negb (Tracker.not_null c).

(** Played results first, then only [null] slots: no gap, no hole. *)
Fixpoint contiguous_prefix (a : list cell) : bool :=
  match a with
  | [] => true
  | Res _ :: rest => contiguous_prefix rest
  | Empty :: rest => forallb unplayed rest
  | Hole :: _ => false
  end.

(** *** Helpers for the properties beyond the specification *)

(** The probability as a function of the points difference alone: the
    part of [estimateTop8Probability] below the threshold table. *)
Definition prob_of_diff (omwEstimate : jsval) (diff : Z) : Z :=
  let baseProb :=
    if diff >=? 6 then 100
    else if diff >=? 3 then 98
    else if diff >=? 1 then 92
    else if diff =? 0 then 75
    else if diff =? -1 then 50
    else if diff =? -2 then 25
    else if diff =? -3 then 10
    else if diff =? -4 then 3
    else if diff =? -5 then 1
    else 0 in
  match omwEstimate with
  | Num omw =>
      if (diff >=? -2) && (diff <=? 0) then
        Z.max 0 (Z.min 100 (baseProb + Tracker.omwAdjustment omw diff))
      else baseProb
  | Undefined | Null => baseProb
  end.

Definition record_scenario (r : TournamentRecord) : Scenario :=
  mkScenario (recWins r) (recLosses r) (recDraws r).

(** Match points of the final record reached through scenario [sc]. *)
Definition scenario_points (currentWins currentDraws : Z) (sc : Scenario) : Z :=
  (currentWins + extraWins sc) * 3 + (currentDraws + extraDraws sc) * 1.

(** A slot holding a result ('W', 'L' or 'D'). *)
Definition is_result (c : cell) : bool :=
  match c with Res _ => true | _ => false end.

(** The state needs no resizing: [buildRoundTracker] would leave the
    array at its length. *)
Definition tracker_built (st : Tracker.TrackerState) : Prop :=
  Tracker.players st < 2
  \/ length (Tracker.roundResults st) = Z.to_nat (Tracker.getRounds (Tracker.players st)).

(* ===================================================================== *)
(** ** Loops: unfolding and closed forms *)
(* ===================================================================== *)

Section LoopFacts.
Context {St : Type}.
Implicit Types (body : Z -> St -> St) (s : St).

Lemma for_down_step body i s :
  0 <= i -> for_down body i s = for_down body (i - 1) (body i s).
Proof.
  intros Hi. rewrite for_down_equation_1.
  destruct (Z_le_gt_dec 0 i); [reflexivity | lia].
Qed.

Lemma for_down_exit body i s : i < 0 -> for_down body i s = s.
Proof.
  intros Hi. rewrite for_down_equation_1.
  destruct (Z_le_gt_dec 0 i); [lia | reflexivity].
Qed.

(** A descending loop folds its body over the countdown of its start. *)
Lemma for_down_countdown body k s :
  for_down body (Z.of_nat k - 1) s =
  fold_left (fun acc j => body j acc) (countdown k) s.
Proof.
  revert s. induction k as [|k IH]; intros s.
  - apply for_down_exit. lia.
  - rewrite for_down_step by lia.
    replace (Z.of_nat (S k) - 1 - 1) with (Z.of_nat k - 1) by lia.
    rewrite IH. simpl. do 2 f_equal. lia.
Qed.

Lemma for_down_fold body i s :
  for_down body i s =
  fold_left (fun acc j => body j acc) (countdown (Z.to_nat (i + 1))) s.
Proof.
  destruct (Z_le_gt_dec 0 i) as [Hi|Hi].
  - rewrite <- for_down_countdown. f_equal. lia.
  - rewrite for_down_exit by lia.
    replace (Z.to_nat (i + 1)) with O by lia. reflexivity.
Qed.

End LoopFacts.

Lemma fold_left_push {A B : Type} (f : A -> list B) (l : list A) (acc : list B) :
  fold_left (fun acc j => acc ++ f j) l acc = acc ++ flat_map f l.
Proof.
  revert acc. induction l as [|a l IH]; intros acc; simpl.
  - now rewrite app_nil_r.
  - rewrite IH. now rewrite <- app_assoc.
Qed.

Lemma fold_left_push1 {A B : Type} (f : A -> B) (l : list A) (acc : list B) :
  fold_left (fun acc j => acc ++ [f j]) l acc = acc ++ map f l.
Proof.
  revert acc. induction l as [|a l IH]; intros acc; simpl.
  - now rewrite app_nil_r.
  - rewrite IH. now rewrite <- app_assoc.
Qed.

Lemma fold_left_ext_in {A B : Type} (f g : A -> B -> A) (l : list B) (a : A) :
  (forall x y, f x y = g x y) -> fold_left f l a = fold_left g l a.
Proof.
  intros E. revert a. induction l as [|b l IH]; intros a; simpl; [easy|].
  now rewrite E, IH.
Qed.

Lemma In_countdown z k : In z (countdown k) <-> 0 <= z < Z.of_nat k.
Proof.
  induction k as [|k IH]; simpl.
  - lia.
  - rewrite IH. lia.
Qed.

Lemma length_countdown k : length (countdown k) = k.
Proof. induction k; simpl; congruence. Qed.

(** The search loop returns the first index in [[i, hi]] passing the test,
    and [-1] exactly when there is none. *)
Lemma search_up_spec (test : Z -> bool) (hi i : Z) :
  0 <= i ->
  let r := search_up test hi i in
  (r = -1 /\ forall j, i <= j <= hi -> test j = false)
  \/ (i <= r <= hi /\ test r = true /\ forall j, i <= j < r -> test j = false).
Proof.
  intros Hi. cbv zeta.
  remember (Z.to_nat (hi - i + 1)) as n eqn:Hn.
  revert i Hi Hn. induction n as [|n IH]; intros i Hi Hn.
  - rewrite search_up_equation_1.
    destruct (Z_le_gt_dec i hi); [lia|]. simpl. left. split; [reflexivity|lia].
  - rewrite search_up_equation_1.
    destruct (Z_le_gt_dec i hi) as [Hle|Hgt]; [|lia]. simpl.
    destruct (test i) eqn:Ti; simpl.
    + right. repeat split; try lia. exact Ti.
    + destruct (IH (i + 1)) as [[E F]|[B [T F]]]; try lia.
      * left. split; [exact E|]. intros j Hj.
        destruct (Z.eq_dec j i) as [->|]; [exact Ti | apply F; lia].
      * right. repeat split; try lia; [exact T|]. intros j Hj.
        destruct (Z.eq_dec j i) as [->|]; [exact Ti | apply F; lia].
Qed.

(* ===================================================================== *)
(** ** Scenario enumerator *)
(* ===================================================================== *)

Lemma generateScenarios_closed remaining :
  Day2.generateScenarios remaining = scenario_table remaining.
Proof.
  unfold Day2.generateScenarios, scenario_table.
  rewrite for_down_fold.
  rewrite (fold_left_ext_in _ (fun acc w => acc ++ scenario_row remaining w)).
  - now rewrite fold_left_push.
  - intros acc w. rewrite for_down_fold. apply fold_left_push1.
Qed.

Lemma copies_agree remaining :
  Script.generateRemainingScenarios remaining = Day2.generateScenarios remaining
  /\ Tracker.generateRemainingScenarios remaining = Day2.generateScenarios remaining.
Proof. split; reflexivity. Qed.

Lemma In_scenario_row remaining w s :
  In s (scenario_row remaining w) <->
  extraWins s = w /\ extraLosses s = remaining - w - extraDraws s
  /\ 0 <= extraDraws s <= remaining - w.
Proof.
  unfold scenario_row. rewrite in_map_iff. split.
  - intros [d [<- Hd]]. apply In_countdown in Hd. simpl. lia.
  - intros (Hw & Hl & Hd). exists (extraDraws s). split.
    + destruct s; simpl in *. now subst.
    + apply In_countdown. lia.
Qed.

Lemma In_scenario_table remaining s :
  In s (scenario_table remaining) <-> valid_scenario remaining s.
Proof.
  unfold scenario_table, valid_scenario. rewrite in_flat_map. split.
  - intros [w [Hw Hs]]. apply In_countdown in Hw.
    apply In_scenario_row in Hs. lia.
  - intros (Hsum & Hw & Hl & Hd). exists (extraWins s). split.
    + apply In_countdown. lia.
    + apply In_scenario_row. lia.
Qed.

Lemma length_scenario_rows remaining k :
  Z.of_nat k <= remaining + 1 ->
  2 * Z.of_nat (length (flat_map (scenario_row remaining) (countdown k)))
  = 2 * Z.of_nat k * (remaining + 1) - Z.of_nat k * (Z.of_nat k - 1).
Proof.
  induction k as [|k IH]; intros Hk.
  - reflexivity.
  - cbn [countdown flat_map]. rewrite length_app, Nat2Z.inj_add.
    unfold scenario_row at 1. rewrite length_map, length_countdown.
    specialize (IH ltac:(lia)). nia.
Qed.

Lemma length_scenario_table remaining :
  0 <= remaining ->
  Z.of_nat (length (scenario_table remaining)) = (remaining + 1) * (remaining + 2) / 2.
Proof.
  intros Hr. unfold scenario_table.
  pose proof (length_scenario_rows remaining (Z.to_nat (remaining + 1)) ltac:(lia)) as H.
  rewrite Z2Nat.id in H by lia.
  apply Z.div_unique_exact; [lia|]. nia.
Qed.

Lemma StronglySorted_app {A : Type} (R : A -> A -> Prop) (l1 l2 : list A) :
  StronglySorted R l1 -> StronglySorted R l2 ->
  (forall x y, In x l1 -> In y l2 -> R x y) ->
  StronglySorted R (l1 ++ l2).
Proof.
  intros S1 S2 Hx. induction S1 as [|a l1 S1 IH Ha]; simpl; [exact S2|].
  constructor.
  - apply IH. intros x y Hin. apply Hx. now right.
  - apply Forall_app. split; [exact Ha|].
    apply Forall_forall. intros y Hy. apply Hx; [now left | exact Hy].
Qed.

Lemma StronglySorted_NoDup {A : Type} (R : A -> A -> Prop) (l : list A) :
  (forall x, ~ R x x) -> StronglySorted R l -> NoDup l.
Proof.
  intros Irr S. induction S as [|a l S IH Ha]; constructor; [|exact IH].
  intros Hin. rewrite Forall_forall in Ha. exact (Irr a (Ha a Hin)).
Qed.

Lemma sorted_scenario_row remaining w :
  StronglySorted listed_before (scenario_row remaining w).
Proof.
  unfold scenario_row. generalize (Z.to_nat (remaining - w + 1)) as m.
  induction m as [|m IH]; simpl; constructor; [exact IH|].
  apply Forall_forall. intros s Hs. apply in_map_iff in Hs.
  destruct Hs as [d [<- Hd]]. apply In_countdown in Hd.
  right. simpl. lia.
Qed.

Lemma sorted_scenario_rows remaining k :
  StronglySorted listed_before (flat_map (scenario_row remaining) (countdown k)).
Proof.
  induction k as [|k IH]; cbn [countdown flat_map]; [constructor|].
  apply StronglySorted_app; [apply sorted_scenario_row | exact IH |].
  intros x y Hx Hy. apply In_scenario_row in Hx.
  apply in_flat_map in Hy. destruct Hy as [w [Hw Hy]].
  apply In_countdown in Hw. apply In_scenario_row in Hy.
  left. lia.
Qed.

Lemma countdown_snoc k : exists l, countdown (S k) = l ++ [0].
Proof.
  induction k as [|k [l IH]].
  - now exists [].
  - exists (Z.of_nat (S k) :: l). change (countdown (S (S k))) with
      (Z.of_nat (S k) :: countdown (S k)). now rewrite IH.
Qed.

Lemma scenario_table_first remaining :
  0 <= remaining ->
  hd_error (scenario_table remaining) = Some (mkScenario remaining 0 0).
Proof.
  intros Hr. unfold scenario_table.
  destruct (Z.to_nat (remaining + 1)) as [|k] eqn:Ek; [lia|].
  cbn [countdown flat_map]. unfold scenario_row at 1.
  replace (Z.of_nat k) with remaining by lia.
  replace (remaining - remaining + 1) with 1 by lia.
  simpl. do 2 f_equal. lia.
Qed.

Lemma scenario_table_last remaining d :
  0 <= remaining ->
  last (scenario_table remaining) d = mkScenario 0 remaining 0.
Proof.
  intros Hr. unfold scenario_table.
  destruct (Z.to_nat (remaining + 1)) as [|k] eqn:Ek; [lia|].
  destruct (countdown_snoc k) as [ws ->].
  rewrite flat_map_app. cbn [flat_map]. rewrite app_nil_r.
  unfold scenario_row at 2.
  replace (Z.to_nat (remaining - 0 + 1)) with (S k) by lia.
  destruct (countdown_snoc k) as [ds ->].
  rewrite map_app, app_assoc. simpl. rewrite last_last.
  f_equal. lia.
Qed.

(** C2. For every [remaining >= 0] the scenario enumerator of day2.js and of
    script.js returns exactly [(remaining+1)(remaining+2)/2] triples; each
    sums to [remaining] with non-negative components; every such triple is
    listed, none twice; the listing runs from [remaining] wins down to 0
    wins and, for equal wins, from most draws to fewest. *)
Theorem scenario_enumeration_contract (remaining : Z) :
  0 <= remaining ->
  enumeration_contract remaining (Day2.generateScenarios remaining)
  /\ enumeration_contract remaining (Script.generateRemainingScenarios remaining).
Proof.
  intros Hr.
  assert (enumeration_contract remaining (Day2.generateScenarios remaining)) as H.
  { rewrite generateScenarios_closed. constructor.
    - now apply length_scenario_table.
    - apply Forall_forall. intros s. apply In_scenario_table.
    - intros s. apply In_scenario_table.
    - apply (StronglySorted_NoDup listed_before).
      + intros x [H|[_ H]]; lia.
      + apply sorted_scenario_rows.
    - apply sorted_scenario_rows.
    - now apply scenario_table_first.
    - now apply scenario_table_last. }
  split; [exact H|].
  destruct (copies_agree remaining) as [-> _]. exact H.
Qed.

Lemma scenario_enumeration_contract_witness :
  0 <= 3
  /\ enumeration_contract 3 (Day2.generateScenarios 3)
  /\ enumeration_contract 3 (Script.generateRemainingScenarios 3).
Proof. split; [lia | apply (scenario_enumeration_contract 3); lia]. Defined.

(* ===================================================================== *)
(** ** Top 8 estimator *)
(* ===================================================================== *)

(** Case analysis on every integer test in the goal ([>=?] and [>?] are
    first rewritten to [<=?] and [<?]), discarding the branches that
    contradict each other. *)
Ltac split_tests :=
  repeat (match goal with
          | |- context [Z.eqb ?p ?q] => destruct (Z.eqb_spec p q)
          | |- context [Z.ltb ?p ?q] => destruct (Z.ltb_spec p q)
          | |- context [Z.leb ?p ?q] => destruct (Z.leb_spec p q)
          end; cbn [andb negb]; try lia).

Lemma thresholdPoints_table numPlayers totalRounds :
  Script.thresholdPoints numPlayers totalRounds = spec_thresholdPoints numPlayers totalRounds
  /\ Tracker.thresholdPoints numPlayers totalRounds = spec_thresholdPoints numPlayers totalRounds.
Proof. split; reflexivity. Qed.

Lemma script_estimate_table wins losses draws totalRounds numPlayers :
  Script.estimateTop8Probability wins losses draws totalRounds numPlayers
  = spec_top8Probability wins losses draws totalRounds numPlayers.
Proof.
  unfold Script.estimateTop8Probability, spec_top8Probability, spec_diffProbability.
  destruct (numPlayers <=? 8); [reflexivity|].
  destruct (thresholdPoints_table numPlayers totalRounds) as [-> _].
  unfold Script.getMatchPoints. rewrite Z.mul_1_r.
  reflexivity.
Qed.

(** The copy with the tracker, called without a usable OMW% estimate,
    computes what script.js computes. *)
Lemma tracker_estimate_no_omw wins losses draws totalRounds numPlayers omw :
  omw = Undefined \/ omw = Null ->
  Tracker.estimateTop8Probability wins losses draws totalRounds numPlayers omw
  = Script.estimateTop8Probability wins losses draws totalRounds numPlayers.
Proof. intros [-> | ->]; reflexivity. Qed.

(** C1. Without an OMW% estimate, both copies of [estimateTop8Probability]
    return 100 when [numPlayers <= 8] whatever the record, and otherwise the
    diff table applied to [wins*3 + draws] minus the threshold of the
    player-count bucket. *)
Theorem top8_probability_tables (wins losses draws totalRounds numPlayers : Z) :
  Script.estimateTop8Probability wins losses draws totalRounds numPlayers
  = spec_top8Probability wins losses draws totalRounds numPlayers
  /\ Tracker.estimateTop8Probability wins losses draws totalRounds numPlayers Undefined
     = spec_top8Probability wins losses draws totalRounds numPlayers
  /\ Tracker.estimateTop8Probability wins losses draws totalRounds numPlayers Null
     = spec_top8Probability wins losses draws totalRounds numPlayers.
Proof.
  repeat split.
  - apply script_estimate_table.
  - rewrite tracker_estimate_no_omw by auto. apply script_estimate_table.
  - rewrite tracker_estimate_no_omw by auto. apply script_estimate_table.
Qed.

(** C10. On the path without OMW% estimate ([undefined] or [null]) the two
    copies of the estimator return equal probabilities. *)
Theorem top8_copies_agree (wins losses draws totalRounds numPlayers : Z) :
  Tracker.estimateTop8Probability wins losses draws totalRounds numPlayers Undefined
  = Script.estimateTop8Probability wins losses draws totalRounds numPlayers
  /\ Tracker.estimateTop8Probability wins losses draws totalRounds numPlayers Null
     = Script.estimateTop8Probability wins losses draws totalRounds numPlayers.
Proof. split; apply tracker_estimate_no_omw; auto. Qed.

(** C3. When the points difference lies outside [-2, 0], the OMW% estimate,
    whatever its value, does not change the probability. *)
Theorem omw_ignored_outside_zone
  (wins losses draws totalRounds numPlayers : Z) (omwEstimate : jsval) :
  let diff := top8_diff wins draws totalRounds numPlayers in
  diff < -2 \/ 0 < diff ->
  Tracker.estimateTop8Probability wins losses draws totalRounds numPlayers omwEstimate
  = Tracker.estimateTop8Probability wins losses draws totalRounds numPlayers Undefined.
Proof.
  unfold top8_diff. cbv zeta. intros Hd.
  unfold Tracker.estimateTop8Probability.
  destruct (numPlayers <=? 8); [reflexivity|].
  destruct omwEstimate as [| |omw]; try reflexivity.
  set (diff := Tracker.getMatchPoints wins draws
               - Tracker.thresholdPoints numPlayers totalRounds) in *.
  assert ((diff >=? -2) && (diff <=? 0) = false) as ->; [|reflexivity].
  rewrite Z.geb_leb. split_tests; reflexivity.
Qed.

Lemma omw_ignored_outside_zone_witness :
  (let diff := top8_diff 5 0 5 32 in diff < -2 \/ 0 < diff)
  /\ Tracker.estimateTop8Probability 5 0 0 5 32 (Num (Fin 0.9))
     = Tracker.estimateTop8Probability 5 0 0 5 32 Undefined.
Proof.
  split.
  - right. reflexivity.
  - apply (omw_ignored_outside_zone 5 0 0 5 32 (Num (Fin 0.9))).
    right. reflexivity.
Defined.

(** The adjustment never moves a probability across the neighbouring
    table entries three points away. *)
Lemma omwAdjustment_bounds omw diff :
  -2 <= diff <= 0 ->
  let a := Tracker.omwAdjustment omw diff in
  (diff = 0 -> -15 <= a <= 10)
  /\ (diff = -1 -> -10 <= a <= 10)
  /\ (diff = -2 -> -8 <= a <= 5).
Proof.
  intros Hd. unfold Tracker.omwAdjustment.
  destruct (JS.gt omw (Fin 0.55)), (JS.lt omw (Fin 0.40)),
           (JS.gt omw (Fin 0.50)), (JS.lt omw (Fin 0.45));
    cbv zeta; split_tests; lia.
Qed.

Lemma script_estimate_monotone wins losses draws totalRounds numPlayers :
  Script.estimateTop8Probability wins losses draws totalRounds numPlayers
  <= Script.estimateTop8Probability (wins + 1) losses draws totalRounds numPlayers.
Proof.
  unfold Script.estimateTop8Probability, Script.getMatchPoints.
  destruct (numPlayers <=? 8); [lia|].
  generalize (Script.thresholdPoints numPlayers totalRounds) as t. intros t.
  cbv zeta. rewrite !Z.geb_leb. split_tests.
Qed.

Lemma tracker_estimate_monotone wins losses draws totalRounds numPlayers omw :
  Tracker.estimateTop8Probability wins losses draws totalRounds numPlayers omw
  <= Tracker.estimateTop8Probability (wins + 1) losses draws totalRounds numPlayers omw.
Proof.
  destruct omw as [| |x].
  1,2: rewrite !tracker_estimate_no_omw by auto; apply script_estimate_monotone.
  unfold Tracker.estimateTop8Probability, Tracker.getMatchPoints.
  destruct (numPlayers <=? 8); [lia|].
  generalize (Tracker.thresholdPoints numPlayers totalRounds) as t. intros t.
  cbv zeta.
  set (d0 := wins * 3 + draws * 1 - t).
  replace ((wins + 1) * 3 + draws * 1 - t) with (d0 + 3) by (unfold d0; lia).
  clearbody d0.
  pose proof (omwAdjustment_bounds x 0 ltac:(lia)) as (B0 & _ & _).
  pose proof (omwAdjustment_bounds x (-1) ltac:(lia)) as (_ & B1 & _).
  pose proof (omwAdjustment_bounds x (-2) ltac:(lia)) as (_ & _ & B2).
  specialize (B0 eq_refl). specialize (B1 eq_refl). specialize (B2 eq_refl).
  cbv zeta in B0, B1, B2.
  assert (d0 <= -6 \/ d0 = -5 \/ d0 = -4 \/ d0 = -3 \/ d0 = -2 \/ d0 = -1
          \/ d0 = 0 \/ 1 <= d0) as Hc by lia.
  rewrite !Z.geb_leb.
  destruct Hc as [H|[H|[H|[H|[H|[H|[H|H]]]]]]]; try subst d0.
  - split_tests.
  - change (-5 + 3) with (-2). split_tests; lia.
  - change (-4 + 3) with (-1). split_tests; lia.
  - change (-3 + 3) with 0. split_tests; lia.
  - change (-2 + 3) with 1. split_tests; lia.
  - change (-1 + 3) with 2. split_tests; lia.
  - change (0 + 3) with 3. split_tests; lia.
  - split_tests.
Qed.

(** C7. With losses, draws, totalRounds, numPlayers and the OMW% estimate
    (present or absent) fixed, one more win never lowers the probability;
    this holds for every [wins], in particular for [wins >= 0], and for
    both copies of the estimator. *)
Theorem top8_monotone_in_wins
  (wins losses draws totalRounds numPlayers : Z) (omwEstimate : jsval) :
  Tracker.estimateTop8Probability (wins + 1) losses draws totalRounds numPlayers omwEstimate
  >= Tracker.estimateTop8Probability wins losses draws totalRounds numPlayers omwEstimate
  /\ Script.estimateTop8Probability (wins + 1) losses draws totalRounds numPlayers
     >= Script.estimateTop8Probability wins losses draws totalRounds numPlayers.
Proof.
  split; apply Z.le_ge.
  - apply tracker_estimate_monotone.
  - apply script_estimate_monotone.
Qed.

(* ===================================================================== *)
(** ** Strategy verdict (Top 8, tournament in progress) *)
(* ===================================================================== *)

Lemma min_wins_search (prob : Z -> Z) (remaining : Z) :
  min_wins_result prob remaining
                  (search_up (fun testW => prob testW >=? 75) remaining 0).
Proof.
  destruct (search_up_spec (fun testW => prob testW >=? 75) remaining 0 ltac:(lia))
    as [[E F]|[B [T F]]]; [left | right].
  - split; [exact E|]. intros x Hx. specialize (F x Hx). cbv beta in F.
    rewrite Z.geb_leb in F. now apply Z.leb_gt in F.
  - cbv beta in T. rewrite Z.geb_leb in T. apply Z.leb_le in T.
    repeat split; try lia. intros x Hx. specialize (F x Hx). cbv beta in F.
    rewrite Z.geb_leb in F. now apply Z.leb_gt in F.
Qed.

Lemma cascade_selected (dp wp m remaining : Z) :
  verdict_cascade dp wp m remaining
    (if dp >=? 90 then SafeToDraw
     else if dp >=? 60 then LikelySafe
     else if (m >? 0) && (m <=? remaining) then WinAtLeast m
     else if wp <? 25 then EliminationLikely
     else MustWin).
Proof.
  unfold verdict_cascade. rewrite !Z.geb_leb, Z.gtb_ltb.
  destruct (Z.leb_spec 90 dp); [left; split; [lia | reflexivity]|].
  destruct (Z.leb_spec 60 dp); [right; left; split; [lia | reflexivity]|].
  destruct (Z.ltb_spec 0 m), (Z.leb_spec m remaining); cbn [andb];
    try (right; right; left; repeat split; lia);
    destruct (Z.ltb_spec wp 25);
    solve [ right; right; right; left; repeat split; lia
          | right; right; right; right; repeat split; lia ].
Qed.

Lemma tracker_strategy_contract
  (numPlayers totalRounds currentWins currentLosses currentDraws : Z)
  (results : list cell) :
  strategy_contract
    (fun wins draws =>
       Tracker.estimateTop8Probability wins currentLosses draws totalRounds numPlayers
         (Tracker.estimateOMW results totalRounds))
    currentWins currentDraws
    (totalRounds - (currentWins + currentLosses + currentDraws))
    (Tracker.strategy numPlayers totalRounds currentWins currentLosses currentDraws results).
Proof.
  unfold strategy_contract, Tracker.strategy. cbn [sRemaining drawAllProb winAllProb
    sMinWinsNeeded strategyVerdict]. cbv zeta.
  repeat split; try reflexivity.
  - apply (min_wins_search (fun x => Tracker.estimateTop8Probability _ _ _ _ _ _)).
  - apply cascade_selected.
Qed.

Lemma script_strategy_contract
  (numPlayers totalRounds currentWins currentLosses currentDraws : Z) :
  strategy_contract
    (fun wins draws =>
       Script.estimateTop8Probability wins currentLosses draws totalRounds numPlayers)
    currentWins currentDraws
    (totalRounds - (currentWins + currentLosses + currentDraws))
    (Script.strategy numPlayers totalRounds currentWins currentLosses currentDraws).
Proof.
  unfold strategy_contract, Script.strategy. cbn [sRemaining drawAllProb winAllProb
    sMinWinsNeeded strategyVerdict]. cbv zeta.
  repeat split; try reflexivity.
  - apply (min_wins_search (fun x => Script.estimateTop8Probability _ _ _ _ _)).
  - apply cascade_selected.
Qed.

(** C4. For every in-progress input that passes the guards of [calculate]
    (at least 8 players, at least one round played, at least one round
    left), both copies of [calculate] show a strategy card whose
    probabilities and [minWinsNeeded] are computed as specified, all with
    the same OMW% estimate, and whose verdict is chosen by the cascade:
    drawAllProb >= 90, else drawAllProb >= 60, else
    0 < minWinsNeeded <= remaining, else winAllProb < 25, else must win. *)
Theorem strategy_verdict_cascade
  (numPlayers currentWins currentLosses currentDraws : Z) (results : list cell) :
  let totalRounds := Tracker.getRounds numPlayers in
  let roundsPlayed := currentWins + currentLosses + currentDraws in
  let remaining := totalRounds - roundsPlayed in
  8 <= numPlayers -> roundsPlayed <> 0 -> 1 <= remaining ->
  (exists st,
      Tracker.calculate numPlayers currentWins currentLosses currentDraws true results
      = Shown (Some st)
      /\ strategy_contract
           (fun wins draws =>
              Tracker.estimateTop8Probability wins currentLosses draws totalRounds numPlayers
                (Tracker.estimateOMW results totalRounds))
           currentWins currentDraws remaining st)
  /\ (exists st,
         Script.calculate numPlayers currentWins currentLosses currentDraws true
         = Shown (Some st)
         /\ strategy_contract
              (fun wins draws =>
                 Script.estimateTop8Probability wins currentLosses draws totalRounds numPlayers)
              currentWins currentDraws remaining st).
Proof.
  cbv zeta. intros Hn Hp Hr. split.
  - eexists. split; [|apply tracker_strategy_contract].
    unfold Tracker.calculate. rewrite Z.geb_leb. split_tests. reflexivity.
  - eexists. split; [|apply script_strategy_contract].
    unfold Script.calculate. rewrite Z.geb_leb.
    change (Script.getRounds numPlayers) with (Tracker.getRounds numPlayers).
    split_tests. reflexivity.
Qed.

Lemma strategy_verdict_cascade_witness :
  (8 <= 32 /\ 3 + 0 + 0 <> 0 /\ 1 <= Tracker.getRounds 32 - (3 + 0 + 0))
  /\ (exists st,
        Tracker.calculate 32 3 0 0 true [Res W; Res W; Res W; Empty; Empty]
        = Shown (Some st)
        /\ strategy_contract
             (fun wins draws =>
                Tracker.estimateTop8Probability wins 0 draws (Tracker.getRounds 32) 32
                  (Tracker.estimateOMW [Res W; Res W; Res W; Empty; Empty]
                                       (Tracker.getRounds 32)))
             3 0 (Tracker.getRounds 32 - (3 + 0 + 0)) st)
  /\ (exists st,
        Script.calculate 32 3 0 0 true = Shown (Some st)
        /\ strategy_contract
             (fun wins draws =>
                Script.estimateTop8Probability wins 0 draws (Tracker.getRounds 32) 32)
             3 0 (Tracker.getRounds 32 - (3 + 0 + 0)) st).
Proof.
  assert (8 <= 32) as H1 by lia.
  assert (3 + 0 + 0 <> 0) as H2 by lia.
  assert (1 <= Tracker.getRounds 32 - (3 + 0 + 0)) as H3 by (vm_compute; discriminate).
  split; [auto|].
  exact (strategy_verdict_cascade 32 3 0 0 [Res W; Res W; Res W; Empty; Empty] H1 H2 H3).
Defined.

(* ===================================================================== *)
(** ** Day 2: minimum number of wins *)
(* ===================================================================== *)

(** C5. In day2.js, when the player is not yet qualified
    ([currentPoints < threshold]) and not mathematically eliminated
    ([currentPoints + remaining*3 >= threshold]) with [remaining >= 0], the
    ascending search never ends with the sentinel [-1]: [minWinsNeeded] is
    the smallest [w] in [[0, remaining]] with
    [currentPoints + w*3 + (remaining - w)*1 >= threshold]. *)
Theorem day2_min_wins_found
  (totalRounds threshold currentWins currentLosses currentDraws : Z) :
  let a := Day2.analyse totalRounds threshold currentWins currentLosses currentDraws in
  let currentPoints := Day2.getMatchPoints currentWins currentDraws in
  let remaining := totalRounds - (currentWins + currentLosses + currentDraws) in
  let m := Day2.minWinsNeeded a in
  0 <= remaining ->
  currentPoints < threshold ->
  currentPoints + remaining * 3 >= threshold ->
  m <> -1
  /\ 0 <= m <= remaining
  /\ currentPoints + m * 3 + (remaining - m) * 1 >= threshold
  /\ forall w, 0 <= w < m -> currentPoints + w * 3 + (remaining - w) * 1 < threshold.
Proof.
  cbv zeta. intros Hr Hlt Hmax.
  unfold Day2.analyse. cbn [Day2.minWinsNeeded]. cbv zeta.
  set (cp := Day2.getMatchPoints currentWins currentDraws) in *.
  set (rem := totalRounds - (currentWins + currentLosses + currentDraws)) in *.
  assert ((cp >=? threshold) = false) as -> by (rewrite Z.geb_leb; apply Z.leb_gt; lia).
  cbn [negb].
  destruct (search_up_spec
              (fun testW => cp + testW * 3 + (rem - testW) * 1 >=? threshold)
              rem 0 ltac:(lia)) as [[E F]|[B [T F]]].
  - specialize (F rem ltac:(lia)). cbv beta in F.
    rewrite Z.geb_leb in F. apply Z.leb_gt in F. lia.
  - cbv beta in T. rewrite Z.geb_leb in T. apply Z.leb_le in T.
    repeat split; try lia.
    intros w Hw. specialize (F w Hw). cbv beta in F.
    rewrite Z.geb_leb in F. apply Z.leb_gt in F. lia.
Qed.

Lemma day2_min_wins_found_witness :
  let a := Day2.analyse 9 19 5 1 0 in
  let m := Day2.minWinsNeeded a in
  m <> -1
  /\ 0 <= m <= 3
  /\ 15 + m * 3 + (3 - m) * 1 >= 19
  /\ forall w, 0 <= w < m -> 15 + w * 3 + (3 - w) * 1 < 19.
Proof.
  apply (day2_min_wins_found 9 19 5 1 0); vm_compute; congruence.
Defined.

(* ===================================================================== *)
(** ** OMW% estimate *)
(* ===================================================================== *)

(** With no result entered the idealised estimate is [null] as well. *)
Lemma estimateOMW_all_unplayed results totalRounds :
  Forall (fun c => c = Empty) results ->
  Tracker.estimateOMW results totalRounds = Null.
Proof.
  intros Hall. unfold Tracker.estimateOMW.
  destruct (length results =? 0)%nat; [reflexivity|].
  assert (Tracker.array_filter Tracker.not_null results = []) as ->; [|reflexivity].
  unfold Tracker.array_filter.
  induction Hall as [|c l -> _ IH]; simpl; [reflexivity | exact IH].
Qed.

Section OMWBinary64.
Import PrimFloat.
#[local] Set Warnings "-inexact-float".

(** *** Order of binary64 numbers *)



(** *** The clamp *)





(** *** The walk and the estimates *)







Lemma b64_filled_results (s : list RoundResult) :
  Tracker.array_filter Tracker.not_null (map Res s) = map Res s.
Proof.
  induction s as [|r s IH]; [reflexivity|].
  unfold Tracker.array_filter in *. cbn [map List.filter Tracker.not_null].
  now rewrite IH.
Qed.

Lemma b64_filled_played results :
  Forall (fun c => c <> Hole) results ->
  Tracker.array_filter Tracker.not_null results = map Res (played results).
Proof.
  unfold Tracker.array_filter.
  induction 1 as [|c rest Hc _ IH]; [reflexivity|].
  destruct c as [r| |]; cbn [List.filter Tracker.not_null played map].
  - now rewrite IH.
  - exact IH.
  - congruence.
Qed.








(** *** Range of the estimate *)








(** The worked example of the specification: rounds Win, Win, Loss of a
    five-round tournament. *)
Example estimateOMW_worked_example :
  OMWSpec.opponent_estimates [Res W; Res W; Res L; Empty; Empty] 5 0 0
  = [0.46; 0.55999999999999994; 0.74]%float
  /\ Binary64.estimateOMW [Res W; Res W; Res L; Empty; Empty] 5
     = Some 0.58666666666666667%float.
Proof. split; reflexivity. Qed.

(** The rounding is visible: these six results average to exactly one
    half over the rationals. *)
Example estimateOMW_rounding_example :
  Binary64.estimateOMW [Res D; Res D; Res L; Res W; Res W; Res L] 6
  = Some 0.50000000000000011%float.
Proof. reflexivity. Qed.

(** *** Order of the results *)











(** The simplest pair, over the tournament sizes of the threshold table
    and beyond: Loss, Win is strictly below Win, Loss. *)
Lemma pair_checked_all : forallb OMWSpec.pair_checked (seq 1 1024) = true.
Proof. vm_compute. reflexivity. Qed.

Lemma omw_loss_then_win_is_lower (k : Z) :
  1 <= k <= 1024 ->
  exists x y,
    Binary64.estimateOMW [Res L; Res W] (Binary64.of_int k) = Some x
    /\ Binary64.estimateOMW [Res W; Res L] (Binary64.of_int k) = Some y
    /\ (x <? y)%float = true.
Proof.
  intros Hk.
  assert (OMWSpec.pair_checked (Z.to_nat k) = true) as Hc.
  { apply (proj1 (forallb_forall _ _) pair_checked_all). apply in_seq. lia. }
  unfold OMWSpec.pair_checked in Hc. rewrite Z2Nat.id in Hc by lia.
  destruct (Binary64.estimateOMW [Res L; Res W] (Binary64.of_int k)) as [x|];
    [|discriminate Hc].
  destruct (Binary64.estimateOMW [Res W; Res L] (Binary64.of_int k)) as [y|];
    [|discriminate Hc].
  exists x, y. repeat split. exact Hc.
Qed.

(** There is a size from which the order of this pair is no longer
    seen: with [2^53] rounds one result shifts the bracket strength by
    less than the rounding of one half. *)
Example omw_order_unseen_from_2_53 :
  Binary64.estimateOMW [Res L; Res W] (Binary64.of_int (2 ^ 53)) = Some 0.5%float
  /\ Binary64.estimateOMW [Res W; Res L] (Binary64.of_int (2 ^ 53)) = Some 0.5%float.
Proof. split; vm_compute; reflexivity. Qed.

End OMWBinary64.

(* ===================================================================== *)
(** ** Round tracker *)
(* ===================================================================== *)

Lemma contiguous_prefix_shape (a : list cell) :
  contiguous_prefix a = true <->
  exists (played : list RoundResult) (n : nat),
    a = map Res played ++ replicate n Empty.
Proof.
  split.
  - induction a as [|[r| |] rest IH]; simpl; intros H.
    + now exists [], O.
    + destruct (IH H) as (p & n & ->). now exists (r :: p), n.
    + exists [], (S (length rest)). simpl. f_equal.
      clear IH. induction rest as [|c rest IH]; [reflexivity|].
      simpl in H. apply andb_prop in H. destruct H as [Hc H].
      destruct c; try discriminate. simpl. f_equal. now apply IH.
    + discriminate.
  - intros (p & n & ->). induction p as [|r p IH]; simpl; [|exact IH].
    destruct n as [|n]; [reflexivity|]. simpl.
    induction n as [|n IHn]; [reflexivity | exact IHn].
Qed.

Lemma unplayed_contiguous (a : list cell) :
  forallb unplayed a = true -> contiguous_prefix a = true.
Proof.
  destruct a as [|[r| |] rest]; simpl; intros H; try discriminate; auto.
Qed.

Lemma unplayed_take (a : list cell) (k : nat) :
  forallb unplayed a = true -> forallb unplayed (take k a) = true.
Proof.
  revert k. induction a as [|c rest IH]; intros [|k] H; simpl in *; auto.
  apply andb_prop in H. destruct H as [-> H]. simpl. now apply IH.
Qed.

Lemma unplayed_app_nulls (a : list cell) (m : nat) :
  forallb unplayed a = true -> forallb unplayed (a ++ replicate m Empty) = true.
Proof.
  intros H. rewrite forallb_app, H. simpl.
  induction m as [|m IH]; [reflexivity | exact IH].
Qed.

Lemma contiguous_take (a : list cell) (k : nat) :
  contiguous_prefix a = true -> contiguous_prefix (take k a) = true.
Proof.
  revert k. induction a as [|[r| |] rest IH]; intros [|k] H; simpl in *;
    auto using unplayed_take.
Qed.

Lemma contiguous_app_nulls (a : list cell) (m : nat) :
  contiguous_prefix a = true -> contiguous_prefix (a ++ replicate m Empty) = true.
Proof.
  induction a as [|[r| |] rest IH]; intros H; simpl in *;
    auto using unplayed_app_nulls.
  apply unplayed_contiguous. apply (unplayed_app_nulls [] m). reflexivity.
Qed.

(** The resizing done by [buildRoundTracker] keeps the invariant. *)
Lemma contiguous_buildRoundTracker (st : Tracker.TrackerState) :
  contiguous_prefix (Tracker.roundResults st) = true ->
  contiguous_prefix (Tracker.roundResults (Tracker.buildRoundTracker st)) = true.
Proof.
  intros H. unfold Tracker.buildRoundTracker.
  destruct (Tracker.players st <? 2); [exact H|].
  cbn [Tracker.roundResults]. rewrite resize_spec.
  apply contiguous_app_nulls, contiguous_take, H.
Qed.

Lemma unplayed_lookup (a : list cell) (i : nat) (c : cell) :
  forallb unplayed a = true -> a !! i = Some c -> Tracker.not_null c = false.
Proof.
  revert i. induction a as [|c0 rest IH]; intros [|i] H Hi; simpl in *;
    try discriminate; apply andb_prop in H; destruct H as [Hc H].
  - injection Hi as <-. now destruct c0.
  - now apply (IH i).
Qed.

(** Writing a result into an enabled row keeps the invariant. *)
Lemma contiguous_set_enabled (a : list cell) (round : nat) (result : RoundResult) :
  contiguous_prefix a = true ->
  (round < length a)%nat ->
  Tracker.enabled a round = true ->
  contiguous_prefix (Tracker.array_set a round (Res result)) = true.
Proof.
  intros Hc Hlt He. unfold Tracker.array_set.
  destruct (Nat.ltb_spec round (length a)) as [_|]; [|lia].
  revert round Hlt He. induction a as [|c rest IH]; intros round Hlt He.
  - simpl in Hlt. lia.
  - destruct round as [|r].
    + simpl. destruct c; simpl in Hc; auto using unplayed_contiguous. discriminate.
    + simpl in Hlt. assert (r < length rest)%nat as Hr by lia.
      destruct (lookup_lt_is_Some_2 rest r Hr) as [cr Hcr].
      destruct c as [x| |]; simpl in Hc; [| |discriminate].
      * change (<[S r := Res result]> (Res x :: rest))
          with (Res x :: <[r := Res result]> rest).
        simpl. apply IH; [exact Hc | exact Hr |].
        unfold Tracker.enabled in *. destruct r as [|r']; [reflexivity|].
        replace (S (S r') - 1)%nat with (S r') in He by lia.
        replace (S r' - 1)%nat with r' by lia.
        exact He.
      * exfalso. unfold Tracker.enabled in He. cbn [Nat.eqb orb] in He.
        replace (S r - 1)%nat with r in He by lia.
        change ((Empty :: rest) !! S r) with (rest !! r) in He.
        rewrite Hcr in He.
        rewrite (unplayed_lookup rest r cr Hc Hcr), orb_false_r in He.
        destruct r as [|r']; [discriminate He|].
        change ((Empty :: rest) !! S r') with (rest !! r') in He.
        destruct (rest !! r') as [c'|] eqn:Hc'.
        -- rewrite (unplayed_lookup rest r' c' Hc Hc') in He. discriminate.
        -- apply lookup_ge_None_1 in Hc'. lia.
Qed.

(** The loop of [onRoundClear] overwrites exactly the slots from [round] on. *)
Lemma clear_loop_lookup (a : list cell) (round k j : nat) :
  (round + k <= length a)%nat ->
  let res := fold_left (fun a i => Tracker.array_set a i Empty) (seq round k) a in
  length res = length a
  /\ res !! j = if decide (round <= j < round + k)%nat then Some Empty else a !! j.
Proof.
  cbv zeta. induction k as [|k IH]; intros Hk.
  - simpl. split; [reflexivity|]. destruct (decide _); [lia | reflexivity].
  - rewrite seq_S, fold_left_app. cbn [fold_left].
    destruct (IH ltac:(lia)) as [Hlen Hlk].
    set (res := fold_left _ (seq round k) a) in *.
    unfold Tracker.array_set.
    destruct (Nat.ltb_spec (round + k) (length res)) as [_|]; [|lia].
    split; [now rewrite length_insert|].
    rewrite list_lookup_insert, Hlk.
    repeat destruct (decide _); try reflexivity; lia.
Qed.

Lemma clear_loop_closed (a : list cell) (round : nat) :
  fold_left (fun a i => Tracker.array_set a i Empty)
            (seq round (length a - round)) a
  = take round a ++ replicate (length a - round) Empty.
Proof.
  apply list_eq. intros j.
  destruct (Nat.le_gt_cases round (length a)) as [Hle|Hgt].
  - destruct (clear_loop_lookup a round (length a - round) j ltac:(lia)) as [_ ->].
    destruct (decide _) as [Hj|Hj].
    + rewrite lookup_app_r by (rewrite length_take; lia).
      rewrite lookup_replicate_2; [reflexivity|]. rewrite length_take. lia.
    + destruct (Nat.lt_ge_cases j round) as [Hlt|Hge].
      * rewrite lookup_app_l by (rewrite length_take; lia).
        now rewrite lookup_take_lt.
      * rewrite !lookup_ge_None_2; [reflexivity| |lia].
        rewrite length_app, length_take, length_replicate. lia.
  - replace (length a - round)%nat with O by lia. simpl.
    rewrite app_nil_r. now rewrite take_ge by lia.
Qed.

Lemma buildRoundTracker_built (st : Tracker.TrackerState) :
  tracker_built st -> Tracker.buildRoundTracker st = st.
Proof.
  unfold tracker_built, Tracker.buildRoundTracker. intros [Hp|Hlen].
  - destruct (Z.ltb_spec (Tracker.players st) 2); [reflexivity | lia].
  - destruct (Tracker.players st <? 2); [reflexivity|].
    rewrite resize_all_alt by (symmetry; exact Hlen). now destruct st.
Qed.

Lemma unplayed_insert_result (a : list cell) (r : nat) (result : RoundResult) :
  (r < length a)%nat -> forallb unplayed (<[r := Res result]> a) = false.
Proof.
  revert r. induction a as [|c rest IH]; intros [|r] Hr; simpl in *;
    [lia | lia | reflexivity |].
  rewrite IH by lia. apply andb_false_r.
Qed.

(** Writing a result into a disabled row opens a gap. *)
Lemma gap_set_disabled (a : list cell) (round : nat) (result : RoundResult) :
  contiguous_prefix a = true ->
  (round < length a)%nat ->
  Tracker.enabled a round = false ->
  contiguous_prefix (Tracker.array_set a round (Res result)) = false.
Proof.
  intros Hc Hlt He. unfold Tracker.array_set.
  destruct (Nat.ltb_spec round (length a)) as [_|]; [|lia].
  revert round Hlt He. induction a as [|c rest IH]; intros round Hlt He.
  - simpl in Hlt. lia.
  - destruct round as [|r]; [discriminate He|].
    simpl in Hlt. assert (r < length rest)%nat as Hr by lia.
    destruct c as [x| |]; simpl in Hc; [| |discriminate].
    + change (<[S r := Res result]> (Res x :: rest))
        with (Res x :: <[r := Res result]> rest).
      cbn [contiguous_prefix]. apply IH; [exact Hc | exact Hr |].
      unfold Tracker.enabled in *. cbn [Nat.eqb orb] in He.
      destruct r as [|r']; [discriminate He|].
      replace (S (S r') - 1)%nat with (S r') in He by lia.
      replace (S r' - 1)%nat with r' by lia.
      exact He.
    + change (<[S r := Res result]> (Empty :: rest))
        with (Empty :: <[r := Res result]> rest).
      cbn [contiguous_prefix]. now apply unplayed_insert_result.
Qed.

(** C9. The click handler writes the result without checking that the row
    is enabled: on a built tracker whose results form a contiguous played
    prefix, every click on a button of a row that [buildRoundTracker]
    marks as disabled leaves a sequence with a gap, against the sequential
    entry the tracker is meant to enforce. *)
Theorem unguarded_click_breaks_prefix
  (st : Tracker.TrackerState) (round : nat) (result : RoundResult) :
  tracker_built st ->
  contiguous_prefix (Tracker.roundResults st) = true ->
  (round < length (Tracker.roundResults st))%nat ->
  Tracker.enabled (Tracker.roundResults st) round = false ->
  contiguous_prefix (Tracker.roundResults (Tracker.onRoundBtnClick st round result))
  = false.
Proof.
  intros Hb Hc Hlt He. unfold Tracker.onRoundBtnClick.
  rewrite buildRoundTracker_built.
  - cbn [Tracker.roundResults]. now apply gap_set_disabled.
  - destruct Hb as [Hp|Hlen]; [left; exact Hp|]. right.
    cbn [Tracker.roundResults Tracker.players]. unfold Tracker.array_set.
    destruct (Nat.ltb_spec round (length (Tracker.roundResults st))) as [_|]; [|lia].
    now rewrite length_insert.
Qed.

(** A click on the W button of the third round of an empty tracker of
    eight players. *)
Lemma unguarded_click_breaks_prefix_witness :
  let st := Tracker.mkTracker [Empty; Empty; Empty] 8 in
  tracker_built st
  /\ contiguous_prefix (Tracker.roundResults st) = true
  /\ Tracker.enabled (Tracker.roundResults st) 2 = false
  /\ Tracker.roundResults (Tracker.onRoundBtnClick st 2 W) = [Empty; Empty; Res W]
  /\ contiguous_prefix (Tracker.roundResults (Tracker.onRoundBtnClick st 2 W)) = false.
Proof.
  cbv zeta.
  assert (tracker_built (Tracker.mkTracker [Empty; Empty; Empty] 8)) as Hb
    by (right; reflexivity).
  split; [exact Hb|]. split; [reflexivity|]. split; [reflexivity|].
  split; [reflexivity|].
  apply (unguarded_click_breaks_prefix (Tracker.mkTracker [Empty; Empty; Empty] 8) 2 W);
    [exact Hb | reflexivity | simpl; lia | reflexivity].
Defined.

(** X29. With the guard the page applies to its rows the invariant holds:
    from a tracker whose results form a contiguous played prefix, setting
    the result of a round whose row exists and is enabled (round 0, or
    the previous round or the round itself already has a result), and
    clearing any round together with all later rounds, both leave a
    contiguous played prefix. *)
Theorem tracker_keeps_prefix
  (st : Tracker.TrackerState) (round : nat) (result : RoundResult) :
  contiguous_prefix (Tracker.roundResults st) = true ->
  ((round < length (Tracker.roundResults st))%nat ->
   Tracker.enabled (Tracker.roundResults st) round = true ->
   contiguous_prefix (Tracker.roundResults (Tracker.onRoundBtnClick st round result)) = true)
  /\ contiguous_prefix (Tracker.roundResults (Tracker.onRoundClear st round)) = true.
Proof.
  intros Hc. split.
  - intros Hlt He. unfold Tracker.onRoundBtnClick.
    apply contiguous_buildRoundTracker. cbn [Tracker.roundResults].
    now apply contiguous_set_enabled.
  - unfold Tracker.onRoundClear. cbv zeta.
    apply contiguous_buildRoundTracker. cbn [Tracker.roundResults].
    rewrite clear_loop_closed.
    apply contiguous_app_nulls, contiguous_take, Hc.
Qed.

Lemma tracker_keeps_prefix_witness :
  let st := Tracker.mkTracker [Res W; Res L; Empty] 8 in
  contiguous_prefix (Tracker.roundResults st) = true
  /\ contiguous_prefix (Tracker.roundResults (Tracker.onRoundBtnClick st 2 D)) = true
  /\ contiguous_prefix (Tracker.roundResults (Tracker.onRoundClear st 1)) = true.
Proof.
  cbv zeta.
  destruct (tracker_keeps_prefix (Tracker.mkTracker [Res W; Res L; Empty] 8) 2 D
              eq_refl) as [Hset _].
  destruct (tracker_keeps_prefix (Tracker.mkTracker [Res W; Res L; Empty] 8) 1 D
              eq_refl) as [_ Hclear].
  split; [reflexivity|]. split; [|exact Hclear].
  apply Hset; [simpl; lia | reflexivity].
Defined.

(* ===================================================================== *)
(** ** Worked examples of the specification *)
(* ===================================================================== *)

Example top8_worked_example :
  Script.getRounds 32 = 5
  /\ Script.estimateTop8Probability 4 1 0 5 32 = 75
  /\ Tracker.estimateTop8Probability 4 1 0 5 32 (Num (Fin 0.58)) = 85.
Proof. repeat split. Qed.

Example day2_worked_example :
  option_map Day2.verdict (Day2.calculate 9 19 5 1 0) = Some (Day2.NeedWins 1 false).
Proof. reflexivity. Qed.

Example scenarios_worked_example :
  Day2.generateScenarios 2
  = [mkScenario 2 0 0; mkScenario 1 0 1; mkScenario 1 1 0;
     mkScenario 0 0 2; mkScenario 0 1 1; mkScenario 0 2 0].
Proof. reflexivity. Qed.

(* ===================================================================== *)
(** ** Further properties: the Top 8 estimator *)
(* ===================================================================== *)

Lemma tracker_estimate_by_diff wins losses draws totalRounds numPlayers omw :
  Tracker.estimateTop8Probability wins losses draws totalRounds numPlayers omw
  = if numPlayers <=? 8 then 100
    else prob_of_diff omw (wins * 3 + draws * 1
                           - Tracker.thresholdPoints numPlayers totalRounds).
Proof. reflexivity. Qed.

Lemma prob_of_diff_range omw diff : 0 <= prob_of_diff omw diff <= 100.
Proof.
  unfold prob_of_diff. cbv zeta. rewrite !Z.geb_leb.
  destruct omw as [| |x]; split_tests; lia.
Qed.

Lemma prob_of_diff_step omw diff :
  prob_of_diff omw diff <= prob_of_diff omw (diff + 1).
Proof.
  destruct omw as [| |x].
  1,2: unfold prob_of_diff; cbv zeta; rewrite !Z.geb_leb; split_tests; lia.
  pose proof (omwAdjustment_bounds x 0 ltac:(lia)) as (B0 & _ & _).
  pose proof (omwAdjustment_bounds x (-1) ltac:(lia)) as (_ & B1 & _).
  pose proof (omwAdjustment_bounds x (-2) ltac:(lia)) as (_ & _ & B2).
  specialize (B0 eq_refl). specialize (B1 eq_refl). specialize (B2 eq_refl).
  cbv zeta in B0, B1, B2.
  assert (diff <= -4 \/ diff = -3 \/ diff = -2 \/ diff = -1 \/ diff = 0 \/ 1 <= diff)
    as Hc by lia.
  unfold prob_of_diff. cbv zeta. rewrite !Z.geb_leb.
  destruct Hc as [H|[H|[H|[H|[H|H]]]]]; try subst diff.
  - split_tests; lia.
  - change (-3 + 1) with (-2). split_tests; lia.
  - change (-2 + 1) with (-1). split_tests; lia.
  - change (-1 + 1) with 0. split_tests; lia.
  - change (0 + 1) with 1. split_tests; lia.
  - split_tests; lia.
Qed.

Lemma prob_of_diff_monotone omw d1 d2 :
  d1 <= d2 -> prob_of_diff omw d1 <= prob_of_diff omw d2.
Proof.
  intros H. replace d2 with (d1 + (d2 - d1)) by lia.
  assert (0 <= d2 - d1) as Hk by lia. revert Hk.
  generalize (d2 - d1) as k. intros k Hk. pattern k.
  apply natlike_ind; [| |exact Hk].
  - rewrite Z.add_0_r. lia.
  - intros j Hj IH. replace (d1 + Z.succ j) with (d1 + j + 1) by lia.
    pose proof (prob_of_diff_step omw (d1 + j)). lia.
Qed.

Lemma tracker_estimate_points_monotone
  w1 l1 d1 w2 l2 d2 totalRounds numPlayers omw :
  w1 * 3 + d1 <= w2 * 3 + d2 ->
  Tracker.estimateTop8Probability w1 l1 d1 totalRounds numPlayers omw
  <= Tracker.estimateTop8Probability w2 l2 d2 totalRounds numPlayers omw.
Proof.
  intros H. rewrite !tracker_estimate_by_diff.
  destruct (numPlayers <=? 8); [lia|].
  apply prob_of_diff_monotone. lia.
Qed.

(** X1. Every probability the estimator returns lies between 0 and 100,
    for every record, tournament and OMW% value, in both copies. *)
Theorem top8_probability_range
  (wins losses draws totalRounds numPlayers : Z) (omwEstimate : jsval) :
  0 <= Tracker.estimateTop8Probability wins losses draws totalRounds numPlayers omwEstimate
    <= 100
  /\ 0 <= Script.estimateTop8Probability wins losses draws totalRounds numPlayers <= 100.
Proof.
  assert (forall omw,
    0 <= Tracker.estimateTop8Probability wins losses draws totalRounds numPlayers omw
      <= 100) as H.
  { intros omw. rewrite tracker_estimate_by_diff.
    destruct (numPlayers <=? 8); [lia | apply prob_of_diff_range]. }
  split; [apply H|].
  rewrite <- (tracker_estimate_no_omw _ _ _ _ _ Undefined) by auto. apply H.
Qed.

(** X2. The probability depends on the record only through its match
    points: two records with equal [wins*3 + draws] get the same
    probability, whatever their losses. *)
Theorem top8_depends_on_points_only
  (w1 l1 d1 w2 l2 d2 totalRounds numPlayers : Z) (omwEstimate : jsval) :
  w1 * 3 + d1 = w2 * 3 + d2 ->
  Tracker.estimateTop8Probability w1 l1 d1 totalRounds numPlayers omwEstimate
  = Tracker.estimateTop8Probability w2 l2 d2 totalRounds numPlayers omwEstimate
  /\ Script.estimateTop8Probability w1 l1 d1 totalRounds numPlayers
     = Script.estimateTop8Probability w2 l2 d2 totalRounds numPlayers.
Proof.
  intros H.
  assert (forall omw,
    Tracker.estimateTop8Probability w1 l1 d1 totalRounds numPlayers omw
    = Tracker.estimateTop8Probability w2 l2 d2 totalRounds numPlayers omw) as E.
  { intros omw. apply Z.le_antisymm; apply tracker_estimate_points_monotone; lia. }
  split; [apply E|].
  rewrite <- !(tracker_estimate_no_omw _ _ _ _ _ Undefined) by auto. apply E.
Qed.

Lemma top8_depends_on_points_only_witness :
  1 * 3 + 3 = 2 * 3 + 0
  /\ Tracker.estimateTop8Probability 1 0 3 5 32 (Num (Fin 0.6))
     = Tracker.estimateTop8Probability 2 3 0 5 32 (Num (Fin 0.6))
  /\ Script.estimateTop8Probability 1 0 3 5 32
     = Script.estimateTop8Probability 2 3 0 5 32.
Proof.
  split; [reflexivity|].
  apply (top8_depends_on_points_only 1 0 3 2 3 0 5 32 (Num (Fin 0.6))). reflexivity.
Defined.

(** X3. More match points never lower the probability (so an extra draw
    never hurts either), with or without an OMW% estimate. *)
Theorem top8_monotone_in_points
  (w1 l1 d1 w2 l2 d2 totalRounds numPlayers : Z) (omwEstimate : jsval) :
  w1 * 3 + d1 <= w2 * 3 + d2 ->
  Tracker.estimateTop8Probability w1 l1 d1 totalRounds numPlayers omwEstimate
  <= Tracker.estimateTop8Probability w2 l2 d2 totalRounds numPlayers omwEstimate
  /\ Script.estimateTop8Probability w1 l1 d1 totalRounds numPlayers
     <= Script.estimateTop8Probability w2 l2 d2 totalRounds numPlayers.
Proof.
  intros H. split; [now apply tracker_estimate_points_monotone|].
  rewrite <- !(tracker_estimate_no_omw _ _ _ _ _ Undefined) by auto.
  now apply tracker_estimate_points_monotone.
Qed.

Lemma top8_monotone_in_points_witness :
  3 * 3 + 1 <= 3 * 3 + 2
  /\ Tracker.estimateTop8Probability 3 1 1 5 32 (Num (Fin 0.3))
     <= Tracker.estimateTop8Probability 3 0 2 5 32 (Num (Fin 0.3))
  /\ Script.estimateTop8Probability 3 1 1 5 32
     <= Script.estimateTop8Probability 3 0 2 5 32.
Proof.
  split; [lia|].
  apply (top8_monotone_in_points 3 1 1 3 0 2 5 32 (Num (Fin 0.3))). lia.
Defined.

(** X4. Direction and size of the tiebreaker adjustment: an estimate above
    0.50 never lowers the probability, one below 0.45 never raises it, any
    other value (0.45 to 0.50, or NaN) leaves it unchanged; the change is
    never more than 15 points. *)
Theorem omw_adjustment_direction
  (wins losses draws totalRounds numPlayers : Z) (omw : jsnum) :
  let base :=
    Tracker.estimateTop8Probability wins losses draws totalRounds numPlayers Undefined in
  let adjusted :=
    Tracker.estimateTop8Probability wins losses draws totalRounds numPlayers (Num omw) in
  (if JS.gt omw (Fin 0.50) then base <= adjusted
   else if JS.lt omw (Fin 0.45) then adjusted <= base
   else adjusted = base)
  /\ Z.abs (adjusted - base) <= 15.
Proof.
  cbv zeta. rewrite !tracker_estimate_by_diff.
  destruct (numPlayers <=? 8).
  { destruct (JS.gt omw (Fin 0.50)), (JS.lt omw (Fin 0.45)); lia. }
  generalize (wins * 3 + draws * 1 - Tracker.thresholdPoints numPlayers totalRounds).
  intros diff.
  assert (JS.gt omw (Fin 0.55) = true -> JS.gt omw (Fin 0.50) = true) as G.
  { destruct omw as [q| | |]; simpl; try discriminate; auto.
    unfold JS.gt, JS.lt. rewrite !Bool.negb_true_iff.
    intros H. apply Bool.not_true_iff_false. apply Bool.not_true_iff_false in H.
    rewrite Qle_bool_iff in *. intros H'. apply H. lra. }
  assert (JS.lt omw (Fin 0.40) = true -> JS.lt omw (Fin 0.45) = true) as Lo.
  { destruct omw as [q| | |]; simpl; try discriminate; auto.
    rewrite !Bool.negb_true_iff.
    intros H. apply Bool.not_true_iff_false. apply Bool.not_true_iff_false in H.
    rewrite Qle_bool_iff in *. intros H'. apply H. lra. }
  assert (JS.lt omw (Fin 0.40) = true -> JS.gt omw (Fin 0.50) = false) as X.
  { destruct omw as [q| | |]; simpl; try discriminate; auto.
    unfold JS.gt, JS.lt. rewrite Bool.negb_true_iff, Bool.negb_false_iff.
    intros H. apply Bool.not_true_iff_false in H.
    rewrite Qle_bool_iff in *. lra. }
  unfold prob_of_diff, Tracker.omwAdjustment. cbv zeta. rewrite !Z.geb_leb.
  destruct (JS.gt omw (Fin 0.55)) eqn:E1.
  { rewrite (G eq_refl). split_tests; lia. }
  destruct (JS.lt omw (Fin 0.40)) eqn:E2.
  { rewrite (X eq_refl), (Lo eq_refl). split_tests; lia. }
  destruct (JS.gt omw (Fin 0.50)) eqn:E3.
  { split_tests; lia. }
  destruct (JS.lt omw (Fin 0.45)) eqn:E4; split_tests; lia.
Qed.

(* ===================================================================== *)
(** ** Further properties: status bands, rounds and the all-records table *)
(* ===================================================================== *)

(** Like [split_tests], but only on tests between terms free of
    conditionals, so that nested cascades are split from the inside. *)
Ltac no_conditional t :=
  lazymatch t with
  | context [if _ then _ else _] => fail
  | _ => idtac
  end.

Ltac split_inner_tests :=
  repeat (match goal with
          | |- context [Z.eqb ?u ?v] =>
              no_conditional u; no_conditional v; destruct (Z.eqb_spec u v)
          | |- context [Z.ltb ?u ?v] =>
              no_conditional u; no_conditional v; destruct (Z.ltb_spec u v)
          | |- context [Z.leb ?u ?v] =>
              no_conditional u; no_conditional v; destruct (Z.leb_spec u v)
          end; cbn [andb negb]; try lia).

(** X5. Status badge of a row of the thresholds table as a function of the
    points difference: Locked In from one point above the threshold (and
    always with at most 8 players), Likely exactly on it, Possible one or
    two points below, Unlikely three or four below, Out from five below. *)
Theorem status_by_points_difference (wins losses draws totalRounds numPlayers : Z) :
  text (Script.getStatusInfo
          (Script.estimateTop8Probability wins losses draws totalRounds numPlayers))
  = if numPlayers <=? 8 then "Locked In"%string
    else
      let diff := wins * 3 + draws - Script.thresholdPoints numPlayers totalRounds in
      if 1 <=? diff then "Locked In"%string
      else if diff =? 0 then "Likely"%string
      else if -2 <=? diff then "Possible"%string
      else if -4 <=? diff then "Unlikely"%string
      else "Out"%string.
Proof.
  unfold Script.estimateTop8Probability, Script.getMatchPoints, Script.getStatusInfo.
  cbv zeta. rewrite Z.mul_1_r.
  generalize (wins * 3 + draws - Script.thresholdPoints numPlayers totalRounds).
  intros diff. rewrite !Z.geb_leb.
  destruct (Z.leb_spec numPlayers 8); split_inner_tests; reflexivity.
Qed.

(** X6. The status badge and the summary verdict always name the same
    tier, in both copies: both cut at 90, 60, 25 and 3. *)
Theorem status_and_verdict_same_tier (prob : Z) :
  let tiers :=
    [("status-safe", "verdict-safe"); ("status-likely", "verdict-likely");
     ("status-possible", "verdict-possible"); ("status-unlikely", "verdict-unlikely");
     ("status-out", "verdict-eliminated")]%string in
  In (class (Script.getStatusInfo prob), class (Script.getVerdict prob)) tiers
  /\ Tracker.getStatusInfo prob = Script.getStatusInfo prob
  /\ Tracker.getVerdict prob = Script.getVerdict prob.
Proof.
  cbv zeta. split; [|split; reflexivity].
  unfold Script.getStatusInfo, Script.getVerdict. rewrite !Z.geb_leb.
  split_tests; simpl; auto 10.
Qed.

(** X7. The strategy verdict agrees with the badge of the draw-out row:
    "safe to draw" is shown exactly when drawing out is Locked In, and
    "likely safe" exactly when it is Likely. *)
Theorem strategy_agrees_with_draw_badge
  (numPlayers totalRounds currentWins currentLosses currentDraws : Z)
  (results : list cell) :
  let st := Tracker.strategy numPlayers totalRounds currentWins currentLosses
                             currentDraws results in
  (strategyVerdict st = SafeToDraw
   <-> text (Tracker.getStatusInfo (drawAllProb st)) = "Locked In"%string)
  /\ (strategyVerdict st = LikelySafe
      <-> text (Tracker.getStatusInfo (drawAllProb st)) = "Likely"%string).
Proof.
  cbv zeta. unfold Tracker.strategy. cbn [strategyVerdict drawAllProb]. cbv zeta.
  match goal with |- context [if ?p >=? 90 then SafeToDraw else _] => generalize p end.
  intros dp. unfold Tracker.getStatusInfo. rewrite !Z.geb_leb.
  destruct (Z.leb_spec 90 dp); [split; split; intros; (reflexivity || discriminate)|].
  destruct (Z.leb_spec 60 dp); [split; split; intros; (reflexivity || discriminate)|].
  split; split; intros H1.
  - repeat match type of H1 with
           | context [if ?c then _ else _] => destruct c
           end; discriminate.
  - destruct (Z.leb_spec 25 dp), (Z.leb_spec 3 dp); discriminate.
  - repeat match type of H1 with
           | context [if ?c then _ else _] => destruct c
           end; discriminate.
  - destruct (Z.leb_spec 25 dp), (Z.leb_spec 3 dp); discriminate.
Qed.

Lemma scenario_table_contract remaining :
  0 <= remaining -> enumeration_contract remaining (scenario_table remaining).
Proof.
  intros Hr. constructor.
  - now apply length_scenario_table.
  - apply Forall_forall. intros s. apply In_scenario_table.
  - intros s. apply In_scenario_table.
  - apply (StronglySorted_NoDup listed_before).
    + intros x [H|[_ H]]; lia.
    + apply sorted_scenario_rows.
  - apply sorted_scenario_rows.
  - now apply scenario_table_first.
  - now apply scenario_table_last.
Qed.

Lemma generateAllRecords_closed rounds :
  map record_scenario (Script.generateAllRecords rounds) = scenario_table rounds
  /\ Tracker.generateAllRecords rounds = Script.generateAllRecords rounds.
Proof.
  split; [|reflexivity].
  unfold Script.generateAllRecords, scenario_table.
  rewrite for_down_fold.
  rewrite (fold_left_ext_in _
             (fun acc w => acc ++ map (fun d => mkRecord w (rounds - w - d) d)
                                      (countdown (Z.to_nat (rounds - w + 1))))).
  - rewrite fold_left_push. cbn [app].
    rewrite !flat_map_concat_map, concat_map, map_map.
    f_equal. apply map_ext. intros w. unfold scenario_row.
    rewrite map_map. reflexivity.
  - intros acc w. rewrite for_down_fold. apply fold_left_push1.
Qed.

(** X9. The all-records table is the same enumeration as the scenario
    table: for [rounds >= 0] it lists every record with
    [wins + losses + draws = rounds] exactly once, [(rounds+1)(rounds+2)/2]
    rows, most wins first and, for equal wins, most draws first. *)
Theorem generateAllRecords_contract (rounds : Z) :
  0 <= rounds ->
  enumeration_contract rounds (map record_scenario (Script.generateAllRecords rounds))
  /\ enumeration_contract rounds (map record_scenario (Tracker.generateAllRecords rounds)).
Proof.
  intros Hr. destruct (generateAllRecords_closed rounds) as [E1 E2].
  rewrite E2, E1. split; now apply scenario_table_contract.
Qed.

Lemma generateAllRecords_contract_witness :
  0 <= 5
  /\ enumeration_contract 5 (map record_scenario (Script.generateAllRecords 5))
  /\ enumeration_contract 5 (map record_scenario (Tracker.generateAllRecords 5)).
Proof. split; [lia | apply (generateAllRecords_contract 5); lia]. Defined.

(* ===================================================================== *)
(** ** Further properties: strategy verdicts and the scenario table *)
(* ===================================================================== *)

Lemma In_remaining_scenarios remaining sc :
  In sc (Tracker.generateRemainingScenarios remaining) <-> valid_scenario remaining sc.
Proof.
  change (Tracker.generateRemainingScenarios remaining)
    with (Day2.generateScenarios remaining).
  rewrite generateScenarios_closed. apply In_scenario_table.
Qed.

Section StrategyRows.
Variables numPlayers totalRounds currentWins currentLosses currentDraws : Z.
Variable results : list cell.

Let remaining := totalRounds - (currentWins + currentLosses + currentDraws).
Let omw := Tracker.estimateOMW results totalRounds.
Let st :=
  Tracker.strategy numPlayers totalRounds currentWins currentLosses currentDraws results.
Let rows :=
  Tracker.scenarioRows numPlayers totalRounds currentWins currentLosses currentDraws
                       results.
Let prob_at (wins draws : Z) :=
  Tracker.estimateTop8Probability wins currentLosses draws totalRounds numPlayers omw.

Lemma In_rows row :
  In row rows ->
  exists sc, valid_scenario remaining sc
    /\ Tracker.finalW row = currentWins + extraWins sc
    /\ Tracker.finalL row = currentLosses + extraLosses sc
    /\ Tracker.prob row
       = Tracker.estimateTop8Probability (currentWins + extraWins sc)
           (currentLosses + extraLosses sc) (currentDraws + extraDraws sc)
           totalRounds numPlayers omw.
Proof.
  unfold rows, Tracker.scenarioRows. cbv zeta. rewrite in_map_iff.
  intros [sc [<- Hsc]]. apply In_remaining_scenarios in Hsc.
  exists sc. split; [exact Hsc|]. repeat split.
Qed.

Lemma st_contract : strategy_contract prob_at currentWins currentDraws remaining st.
Proof. apply tracker_strategy_contract. Qed.

(** A row with [w] extra wins is at most as good as [w] wins and draws in
    all the other rounds. *)
Lemma row_below_wins_and_draws row :
  In row rows ->
  exists w, 0 <= w <= remaining
    /\ Tracker.finalW row = currentWins + w
    /\ Tracker.prob row <= prob_at (currentWins + w) (currentDraws + (remaining - w)).
Proof.
  intros Hin. destruct (In_rows row Hin) as (sc & (Hs & Hw & Hl & Hd) & Ew & _ & Ep).
  exists (extraWins sc). repeat split; try lia. rewrite Ep.
  apply tracker_estimate_points_monotone. lia.
Qed.

Lemma rows_bounds :
  Forall (fun row =>
            Tracker.prob row <= winAllProb st
            /\ (Tracker.finalL row = currentLosses -> drawAllProb st <= Tracker.prob row))
         rows.
Proof.
  apply Forall_forall. intros row Hin.
  destruct (In_rows row Hin) as (sc & (Hs & Hw & Hl & Hd) & _ & El & Ep).
  destruct st_contract as (_ & Edraw & Ewin & _). rewrite Edraw, Ewin, Ep.
  fold remaining. split.
  - apply tracker_estimate_points_monotone. lia.
  - intros Hloss. apply tracker_estimate_points_monotone. lia.
Qed.

Lemma verdict_facts :
  verdict_cascade (drawAllProb st) (winAllProb st) (sMinWinsNeeded st) remaining
                  (strategyVerdict st)
  /\ min_wins_result
       (fun x => prob_at (currentWins + x) (currentDraws + (remaining - x)))
       remaining (sMinWinsNeeded st)
  /\ drawAllProb st = prob_at (currentWins + 0) (currentDraws + (remaining - 0))
  /\ winAllProb st
     = prob_at (currentWins + remaining) (currentDraws + (remaining - remaining)).
Proof.
  destruct st_contract as (_ & Edraw & Ewin & Hmin & Hv).
  split; [exact Hv|]. split; [exact Hmin|]. split.
  - rewrite Edraw. unfold prob_at. apply Z.le_antisymm;
      apply tracker_estimate_points_monotone; lia.
  - rewrite Ewin. unfold prob_at. apply Z.le_antisymm;
      apply tracker_estimate_points_monotone; lia.
Qed.

End StrategyRows.

(** X10. In the remaining-rounds table no row beats winning out, and no
    row without a further loss is worse than drawing out. *)
Theorem scenario_rows_between_draw_out_and_win_out
  (numPlayers totalRounds currentWins currentLosses currentDraws : Z)
  (results : list cell) :
  let st := Tracker.strategy numPlayers totalRounds currentWins currentLosses
                             currentDraws results in
  Forall (fun row =>
            Tracker.prob row <= winAllProb st
            /\ (Tracker.finalL row = currentLosses -> drawAllProb st <= Tracker.prob row))
         (Tracker.scenarioRows numPlayers totalRounds currentWins currentLosses
                               currentDraws results).
Proof. cbv zeta. apply rows_bounds. Qed.

(** X11. When the verdict is "Top 8 is very unlikely", every row of the
    remaining-rounds table is below 25. *)
Theorem elimination_verdict_covers_all_rows
  (numPlayers totalRounds currentWins currentLosses currentDraws : Z)
  (results : list cell) :
  strategyVerdict (Tracker.strategy numPlayers totalRounds currentWins currentLosses
                                    currentDraws results) = EliminationLikely ->
  Forall (fun row => Tracker.prob row < 25)
         (Tracker.scenarioRows numPlayers totalRounds currentWins currentLosses
                               currentDraws results).
Proof.
  intros Hv.
  destruct (verdict_facts numPlayers totalRounds currentWins currentLosses currentDraws
                          results) as (Hc & _).
  rewrite Hv in Hc.
  assert (winAllProb (Tracker.strategy numPlayers totalRounds currentWins currentLosses
                                       currentDraws results) < 25) as Hw.
  { destruct Hc as [[_ H]|[[_ H]|[(_ & _ & H)|[(_ & _ & H & _)|(_ & _ & _ & H)]]]];
      try discriminate H. exact H. }
  pose proof (rows_bounds numPlayers totalRounds currentWins currentLosses currentDraws
                          results) as B.
  rewrite Forall_forall in *. intros row Hin. destruct (B row Hin) as [B1 _]. lia.
Qed.

Lemma elimination_verdict_covers_all_rows_witness :
  strategyVerdict (Tracker.strategy 32 5 0 3 0 [Res L; Res L; Res L; Empty; Empty])
  = EliminationLikely
  /\ Forall (fun row => Tracker.prob row < 25)
            (Tracker.scenarioRows 32 5 0 3 0 [Res L; Res L; Res L; Empty; Empty]).
Proof.
  assert (strategyVerdict (Tracker.strategy 32 5 0 3 0 [Res L; Res L; Res L; Empty; Empty])
          = EliminationLikely) as H by (vm_compute; reflexivity).
  split; [exact H|].
  exact (elimination_verdict_covers_all_rows 32 5 0 3 0
           [Res L; Res L; Res L; Empty; Empty] H).
Defined.

(** X12. When the verdict is "win at least m more rounds", [m] is the
    search result, lies in [1, remaining], every row with fewer than [m]
    extra wins is below 75, and [m] wins with draws in the other rounds
    reaches 75. *)
Theorem win_at_least_verdict_is_tight
  (numPlayers totalRounds currentWins currentLosses currentDraws : Z)
  (results : list cell) (m : Z) :
  let st := Tracker.strategy numPlayers totalRounds currentWins currentLosses
                             currentDraws results in
  let remaining := totalRounds - (currentWins + currentLosses + currentDraws) in
  strategyVerdict st = WinAtLeast m ->
  m = sMinWinsNeeded st
  /\ 1 <= m <= remaining
  /\ Forall (fun row => Tracker.finalW row < currentWins + m -> Tracker.prob row < 75)
            (Tracker.scenarioRows numPlayers totalRounds currentWins currentLosses
                                  currentDraws results)
  /\ 75 <= Tracker.estimateTop8Probability (currentWins + m) currentLosses
             (currentDraws + (remaining - m)) totalRounds numPlayers
             (Tracker.estimateOMW results totalRounds).
Proof.
  cbv zeta. intros Hv.
  destruct (verdict_facts numPlayers totalRounds currentWins currentLosses currentDraws
                          results) as (Hc & Hmin & _).
  rewrite Hv in Hc.
  destruct Hc as [[_ H]|[[_ H]|[(_ & Hm & H)|[(_ & _ & _ & H)|(_ & _ & _ & H)]]]];
    try discriminate H.
  assert (m = sMinWinsNeeded
                (Tracker.strategy numPlayers totalRounds currentWins currentLosses
                                  currentDraws results)) as ->
    by congruence.
  destruct Hmin as [[E _]|(_ & Hreach & Hbelow)]; [lia|].
  split; [reflexivity|]. split; [lia|]. split; [|exact Hreach].
  apply Forall_forall. intros row Hin Hfew.
  destruct (row_below_wins_and_draws numPlayers totalRounds currentWins currentLosses
              currentDraws results row Hin) as (w & Hw & Ew & Hle).
  specialize (Hbelow w ltac:(lia)). cbv beta in Hbelow. lia.
Qed.

Lemma win_at_least_verdict_is_tight_witness :
  let results := [Res W; Res W; Res W; Res L; Empty] in
  let st := Tracker.strategy 32 5 3 1 0 results in
  strategyVerdict st = WinAtLeast 1
  /\ 1 = sMinWinsNeeded st
  /\ 1 <= 1 <= 5 - (3 + 1 + 0)
  /\ Forall (fun row => Tracker.finalW row < 3 + 1 -> Tracker.prob row < 75)
            (Tracker.scenarioRows 32 5 3 1 0 results)
  /\ 75 <= Tracker.estimateTop8Probability (3 + 1) 1 (0 + (5 - (3 + 1 + 0) - 1)) 5 32
             (Tracker.estimateOMW results 5).
Proof.
  cbv zeta.
  assert (strategyVerdict
            (Tracker.strategy 32 5 3 1 0 [Res W; Res W; Res W; Res L; Empty])
          = WinAtLeast 1) as H by (vm_compute; reflexivity).
  split; [exact H|].
  exact (win_at_least_verdict_is_tight 32 5 3 1 0
           [Res W; Res W; Res W; Res L; Empty] 1 H).
Defined.

(** X13. The last verdict, "you need to win your remaining rounds", is
    only shown when no outcome reaches 75: the search has failed, every
    row is below 75, and winning out gives between 25 and 74. *)
Theorem must_win_verdict_means_below_75
  (numPlayers totalRounds currentWins currentLosses currentDraws : Z)
  (results : list cell) :
  let st := Tracker.strategy numPlayers totalRounds currentWins currentLosses
                             currentDraws results in
  0 <= totalRounds - (currentWins + currentLosses + currentDraws) ->
  strategyVerdict st = MustWin ->
  sMinWinsNeeded st = -1
  /\ 25 <= winAllProb st < 75
  /\ Forall (fun row => Tracker.prob row < 75)
            (Tracker.scenarioRows numPlayers totalRounds currentWins currentLosses
                                  currentDraws results).
Proof.
  cbv zeta. intros Hrem Hv.
  destruct (verdict_facts numPlayers totalRounds currentWins currentLosses currentDraws
                          results) as (Hc & Hmin & Edraw & Ewin).
  rewrite Hv in Hc.
  destruct Hc as [[_ H]|[[_ H]|[(_ & _ & H)|[(_ & _ & _ & H)|(Hdp & Hm & Hwp & _)]]]];
    try discriminate H.
  destruct Hmin as [[E Hall]|(Hm0 & Hreach & _)].
  - pose proof (Hall _ (conj Hrem (Z.le_refl _))) as Hw. cbv beta in Hw.
    rewrite <- Ewin in Hw.
    repeat split; try lia.
    pose proof (rows_bounds numPlayers totalRounds currentWins currentLosses
                            currentDraws results) as B.
    rewrite Forall_forall in *. intros row Hin. destruct (B row Hin) as [B1 _]. lia.
  - exfalso.
    assert (sMinWinsNeeded
              (Tracker.strategy numPlayers totalRounds currentWins currentLosses
                                currentDraws results) = 0) as E0 by lia.
    rewrite E0 in Hreach. rewrite <- Edraw in Hreach. lia.
Qed.

Lemma must_win_verdict_means_below_75_witness :
  let results := [Res W; Res W; Res W; Res W; Res L; Res L; Empty] in
  let st := Tracker.strategy 128 7 4 2 0 results in
  0 <= 7 - (4 + 2 + 0)
  /\ strategyVerdict st = MustWin
  /\ sMinWinsNeeded st = -1
  /\ 25 <= winAllProb st < 75
  /\ Forall (fun row => Tracker.prob row < 75)
            (Tracker.scenarioRows 128 7 4 2 0 results).
Proof.
  cbv zeta.
  assert (0 <= 7 - (4 + 2 + 0)) as H0 by lia.
  assert (strategyVerdict
            (Tracker.strategy 128 7 4 2 0
               [Res W; Res W; Res W; Res W; Res L; Res L; Empty])
          = MustWin) as H by (vm_compute; reflexivity).
  split; [exact H0|]. split; [exact H|].
  exact (must_win_verdict_means_below_75 128 7 4 2 0
           [Res W; Res W; Res W; Res W; Res L; Res L; Empty] H0 H).
Defined.

(** X14. When the verdict is "you can safely draw", every row of the
    table without a further loss is at 90 or above. *)
Theorem safe_draw_verdict_covers_loss_free_rows
  (numPlayers totalRounds currentWins currentLosses currentDraws : Z)
  (results : list cell) :
  strategyVerdict (Tracker.strategy numPlayers totalRounds currentWins currentLosses
                                    currentDraws results) = SafeToDraw ->
  Forall (fun row => Tracker.finalL row = currentLosses -> 90 <= Tracker.prob row)
         (Tracker.scenarioRows numPlayers totalRounds currentWins currentLosses
                               currentDraws results).
Proof.
  intros Hv.
  destruct (verdict_facts numPlayers totalRounds currentWins currentLosses currentDraws
                          results) as (Hc & _).
  rewrite Hv in Hc.
  assert (90 <= drawAllProb (Tracker.strategy numPlayers totalRounds currentWins
                                              currentLosses currentDraws results)) as Hd.
  { destruct Hc as [[H _]|[[_ H]|[(_ & _ & H)|[(_ & _ & _ & H)|(_ & _ & _ & H)]]]];
      try discriminate H. exact H. }
  pose proof (rows_bounds numPlayers totalRounds currentWins currentLosses currentDraws
                          results) as B.
  rewrite Forall_forall in *. intros row Hin Hl.
  destruct (B row Hin) as [_ B2]. specialize (B2 Hl). lia.
Qed.

Lemma safe_draw_verdict_covers_loss_free_rows_witness :
  strategyVerdict (Tracker.strategy 32 5 4 0 0 [Res W; Res W; Res W; Res W; Empty])
  = SafeToDraw
  /\ Forall (fun row => Tracker.finalL row = 0 -> 90 <= Tracker.prob row)
            (Tracker.scenarioRows 32 5 4 0 0 [Res W; Res W; Res W; Res W; Empty]).
Proof.
  assert (strategyVerdict
            (Tracker.strategy 32 5 4 0 0 [Res W; Res W; Res W; Res W; Empty])
          = SafeToDraw) as H by (vm_compute; reflexivity).
  split; [exact H|].
  exact (safe_draw_verdict_covers_loss_free_rows 32 5 4 0 0
           [Res W; Res W; Res W; Res W; Empty] H).
Defined.

(** X15. With a tracker in which no round has been entered the copy with
    the tracker decides exactly as script.js does: same alerts, same
    strategy card. *)
Theorem empty_tracker_behaves_as_script
  (numPlayers currentWins currentLosses currentDraws : Z) (isInProgress : bool)
  (slots : nat) :
  Tracker.calculate numPlayers currentWins currentLosses currentDraws isInProgress
                    (replicate slots Empty)
  = Script.calculate numPlayers currentWins currentLosses currentDraws isInProgress.
Proof.
  unfold Tracker.calculate, Script.calculate, Tracker.strategy, Script.strategy.
  rewrite estimateOMW_all_unplayed.
  - reflexivity.
  - clear. induction slots as [|k IH]; simpl; constructor; auto.
Qed.

(* ===================================================================== *)
(** ** Further properties: Day 2 verdict, scenario table and hint *)
(* ===================================================================== *)

Lemma In_day2_scenarios remaining sc :
  In sc (Day2.generateScenarios remaining) <-> valid_scenario remaining sc.
Proof. rewrite generateScenarios_closed. apply In_scenario_table. Qed.

Section Day2Rows.
Variables totalRounds threshold currentWins currentLosses currentDraws : Z.

Let remaining := totalRounds - (currentWins + currentLosses + currentDraws).
Let points := Day2.getMatchPoints currentWins currentDraws.
Let a := Day2.analyse totalRounds threshold currentWins currentLosses currentDraws.
Let rows :=
  Day2.scenarioRows totalRounds threshold currentWins currentLosses currentDraws.

Lemma In_day2_rows row :
  In row rows <->
  exists sc, valid_scenario remaining sc
    /\ row = Day2.scenarioRow threshold currentWins currentLosses currentDraws
                              remaining sc.
Proof.
  unfold rows, Day2.scenarioRows. cbv zeta. rewrite in_map_iff. fold remaining.
  split; intros [sc [H1 H2]]; exists sc.
  - apply In_day2_scenarios in H2. auto.
  - apply In_day2_scenarios in H1. auto.
Qed.

Lemma day2_row_qualifies sc :
  Day2.makesDay2 (Day2.scenarioRow threshold currentWins currentLosses currentDraws
                                   remaining sc) = true
  <-> threshold <= scenario_points currentWins currentDraws sc.
Proof.
  unfold Day2.scenarioRow, scenario_points, Day2.getMatchPoints. cbn [Day2.makesDay2].
  rewrite Z.geb_leb. apply Z.leb_le.
Qed.

(** The three starting scenarios: lose out, draw out, win out. *)
Lemma day2_corner_rows :
  0 <= remaining ->
  valid_scenario remaining (mkScenario 0 remaining 0)
  /\ valid_scenario remaining (mkScenario 0 0 remaining)
  /\ valid_scenario remaining (mkScenario remaining 0 0).
Proof. unfold valid_scenario. simpl. lia. Qed.

(** What the search returns in terms of points. *)
Lemma day2_search_facts :
  Day2.alreadyIn a = (points >=? threshold)
  /\ (points < threshold ->
      let m := Day2.minWinsNeeded a in
      (m = -1 /\ forall w, 0 <= w <= remaining ->
                           points + w * 3 + (remaining - w) * 1 < threshold)
      \/ (0 <= m <= remaining
          /\ threshold <= points + m * 3 + (remaining - m) * 1
          /\ forall w, 0 <= w < m ->
                       points + w * 3 + (remaining - w) * 1 < threshold)).
Proof.
  split; [reflexivity|]. intros Hlt. cbv zeta.
  unfold a, Day2.analyse. cbn [Day2.minWinsNeeded]. cbv zeta.
  fold points. fold remaining.
  assert ((points >=? threshold) = false) as -> by (rewrite Z.geb_leb; apply Z.leb_gt; lia).
  cbn [negb].
  destruct (search_up_spec
              (fun testW => points + testW * 3 + (remaining - testW) * 1 >=? threshold)
              remaining 0 ltac:(lia)) as [[E F]|[B [T F]]]; [left | right].
  - split; [exact E|]. intros w Hw. specialize (F w Hw). cbv beta in F.
    rewrite Z.geb_leb in F. now apply Z.leb_gt in F.
  - cbv beta in T. rewrite Z.geb_leb in T. apply Z.leb_le in T.
    repeat split; try lia. intros w Hw. specialize (F w Hw). cbv beta in F.
    rewrite Z.geb_leb in F. now apply Z.leb_gt in F.
Qed.

Lemma day2_verdict_cases :
  (threshold <= points /\ Day2.verdict a = Day2.AlreadyIn)
  \/ (points < threshold /\ points + remaining * 3 < threshold
      /\ Day2.verdict a = Day2.Eliminated)
  \/ (points < threshold <= points + remaining /\ Day2.verdict a = Day2.DrawOut)
  \/ (points + remaining < threshold <= points + remaining * 3
      /\ 1 <= Day2.minWinsNeeded a <= remaining
      /\ (Day2.canLoseRest a = true <-> threshold <= points + Day2.minWinsNeeded a * 3)
      /\ (Day2.verdict a = Day2.OneMoreWin
          /\ Day2.minWinsNeeded a = 1 /\ Day2.canLoseRest a = true
          \/ Day2.verdict a = Day2.NeedWins (Day2.minWinsNeeded a) (Day2.canLoseRest a))).
Proof.
  destruct (Z.le_gt_cases threshold points) as [Hin|Hout].
  { left. split; [exact Hin|]. unfold a, Day2.analyse. cbn [Day2.verdict]. cbv zeta.
    fold points.
    assert ((points >=? threshold) = true) as -> by (rewrite Z.geb_leb; now apply Z.leb_le).
    reflexivity. }
  right. destruct day2_search_facts as [Ein Hs]. specialize (Hs ltac:(lia)).
  cbv zeta in Hs.
  assert (Day2.verdict a =
          if Day2.alreadyIn a then Day2.AlreadyIn
          else if Day2.maxPossiblePoints a <? threshold then Day2.Eliminated
          else if Day2.drawAllPoints a >=? threshold then Day2.DrawOut
          else if (Day2.minWinsNeeded a =? 1) && Day2.canLoseRest a then Day2.OneMoreWin
          else if (Day2.minWinsNeeded a >=? 1) && (Day2.minWinsNeeded a <=? remaining)
               then Day2.NeedWins (Day2.minWinsNeeded a) (Day2.canLoseRest a)
          else Day2.MustWinAll) as Ev by reflexivity.
  assert (Day2.canLoseRest a =
          ((if Day2.minWinsNeeded a >=? 0 then points + Day2.minWinsNeeded a * 3 else 0)
             >=? threshold)) as Ec by reflexivity.
  assert (Day2.maxPossiblePoints a = points + remaining * 3) as Emax by reflexivity.
  assert (Day2.drawAllPoints a = points + remaining) as Edraw by reflexivity.
  rewrite Ev, Ein, Emax, Edraw.
  assert ((points >=? threshold) = false) as -> by (rewrite Z.geb_leb; apply Z.leb_gt; lia).
  destruct (Z.ltb_spec (points + remaining * 3) threshold) as [Hel|Hmax].
  { left. repeat split; lia. }
  right. rewrite (Z.geb_leb (points + remaining)).
  destruct (Z.leb_spec threshold (points + remaining)) as [Hd|Hd].
  { left. repeat split; lia. }
  right.
  assert (1 <= Day2.minWinsNeeded a <= remaining) as Hm.
  { destruct Hs as [[E F]|(B & T & F)].
    - specialize (F remaining ltac:(lia)). lia.
    - destruct (Z.eq_dec (Day2.minWinsNeeded a) 0) as [E0|]; [|lia].
      rewrite E0 in T. lia. }
  assert (Day2.canLoseRest a = true <-> threshold <= points + Day2.minWinsNeeded a * 3)
    as Ec'.
  { rewrite Ec. destruct (Z.geb_spec (Day2.minWinsNeeded a) 0); [|lia].
    rewrite <- (Z.geb_le (points + Day2.minWinsNeeded a * 3) threshold). reflexivity. }
  split; [lia|]. split; [exact Hm|]. split; [exact Ec'|].
  destruct (Z.eqb_spec (Day2.minWinsNeeded a) 1) as [E1|N1]; cbn [andb].
  - destruct (Day2.canLoseRest a) eqn:Ecl.
    + left. auto.
    + right. rewrite Z.geb_leb.
      destruct (Z.leb_spec 1 (Day2.minWinsNeeded a)); [|lia].
      destruct (Z.leb_spec (Day2.minWinsNeeded a) remaining); [|lia]. reflexivity.
  - right. rewrite Z.geb_leb.
    destruct (Z.leb_spec 1 (Day2.minWinsNeeded a)); [|lia].
    destruct (Z.leb_spec (Day2.minWinsNeeded a) remaining); [|lia]. reflexivity.
Qed.

End Day2Rows.

(** X16. The last branch of the Day 2 verdict ("you must win all remaining
    rounds") can never be taken: for every input the verdict is one of
    the five others, and a "need N wins" verdict carries the search
    result. *)
Theorem day2_verdict_never_must_win_all
  (totalRounds threshold currentWins currentLosses currentDraws : Z) :
  let a := Day2.analyse totalRounds threshold currentWins currentLosses currentDraws in
  Day2.verdict a = Day2.AlreadyIn
  \/ Day2.verdict a = Day2.Eliminated
  \/ Day2.verdict a = Day2.DrawOut
  \/ Day2.verdict a = Day2.OneMoreWin
  \/ Day2.verdict a = Day2.NeedWins (Day2.minWinsNeeded a) (Day2.canLoseRest a).
Proof.
  cbv zeta.
  destruct (day2_verdict_cases totalRounds threshold currentWins currentLosses
                               currentDraws)
    as [[_ H]|[(_ & _ & H)|[[_ H]|(_ & _ & _ & [(H & _)|H])]]]; auto 6.
Qed.

(** X17. [minWinsNeeded] is a lower bound over the whole scenario table:
    every row that reaches the threshold has at least that many extra
    wins, and if the player is not yet qualified and some row reaches the
    threshold, the search has not failed. *)
Theorem day2_min_wins_bounds_every_row
  (totalRounds threshold currentWins currentLosses currentDraws : Z) :
  let a := Day2.analyse totalRounds threshold currentWins currentLosses currentDraws in
  Forall (fun row =>
            Day2.makesDay2 row = true ->
            currentWins + Day2.minWinsNeeded a <= Day2.finalW row
            /\ (Day2.alreadyIn a = false -> 0 <= Day2.minWinsNeeded a))
         (Day2.scenarioRows totalRounds threshold currentWins currentLosses currentDraws).
Proof.
  cbv zeta. apply Forall_forall. intros row Hin Hq.
  apply In_day2_rows in Hin. destruct Hin as (sc & (Hs & Hw & Hl & Hd) & ->).
  apply day2_row_qualifies in Hq. unfold scenario_points in Hq.
  destruct (day2_search_facts totalRounds threshold currentWins currentLosses
                              currentDraws) as [Ein Hsearch].
  cbn [Day2.finalW Day2.scenarioRow]. rewrite Ein.
  unfold Day2.getMatchPoints in *.
  destruct (Z.le_gt_cases threshold (currentWins * 3 + currentDraws * 1)) as [Hin|Hout].
  - assert (Day2.minWinsNeeded
              (Day2.analyse totalRounds threshold currentWins currentLosses currentDraws)
            = -1) as ->.
    { unfold Day2.analyse. cbn [Day2.minWinsNeeded]. cbv zeta.
      unfold Day2.getMatchPoints.
      assert ((currentWins * 3 + currentDraws * 1 >=? threshold) = true) as ->
        by (rewrite Z.geb_leb; now apply Z.leb_le).
      reflexivity. }
    split; [lia|]. rewrite Z.geb_leb. intros F. apply Z.leb_gt in F. lia.
  - specialize (Hsearch ltac:(lia)). cbv zeta in Hsearch.
    destruct Hsearch as [[E F]|(B & T & F)].
    + specialize (F (extraWins sc) ltac:(lia)). lia.
    + split; [|lia].
      destruct (Z.lt_ge_cases (extraWins sc)
                  (Day2.minWinsNeeded
                     (Day2.analyse totalRounds threshold currentWins currentLosses
                                   currentDraws))) as [Hlt|Hge]; [|lia].
      specialize (F (extraWins sc) ltac:(lia)). lia.
Qed.

(** X18. With [remaining >= 0] the verdict is "mathematically eliminated"
    exactly when no row of the scenario table reaches the threshold. *)
Theorem day2_eliminated_iff_no_row_qualifies
  (totalRounds threshold currentWins currentLosses currentDraws : Z) :
  0 <= totalRounds - (currentWins + currentLosses + currentDraws) ->
  Day2.verdict (Day2.analyse totalRounds threshold currentWins currentLosses currentDraws)
  = Day2.Eliminated
  <-> Forall (fun row => Day2.makesDay2 row = false)
             (Day2.scenarioRows totalRounds threshold currentWins currentLosses
                                currentDraws).
Proof.
  intros Hrem.
  pose proof (day2_verdict_cases totalRounds threshold currentWins currentLosses
                                 currentDraws) as Hc.
  destruct (day2_corner_rows totalRounds currentWins currentLosses currentDraws Hrem)
    as (Close & _ & Cwin).
  unfold Day2.getMatchPoints in Hc.
  rewrite Forall_forall. split.
  - intros Hv row Hin. apply In_day2_rows in Hin.
    destruct Hin as (sc & (Hs & Hw & Hl & Hd) & ->).
    apply Bool.not_true_iff_false. rewrite day2_row_qualifies. unfold scenario_points.
    rewrite Hv in Hc.
    destruct Hc as [[_ H]|[(_ & Hmax & _)|[[_ H]|(_ & _ & _ & [(H & _)|H])]]];
      try discriminate H. lia.
  - intros Hall.
    assert (forall sc, valid_scenario
                         (totalRounds - (currentWins + currentLosses + currentDraws)) sc ->
                       scenario_points currentWins currentDraws sc < threshold) as Hpts.
    { intros sc Hsc. apply Z.nle_gt. rewrite <- day2_row_qualifies.
      apply Bool.not_true_iff_false. apply Hall. apply In_day2_rows. eauto. }
    pose proof (Hpts _ Close) as P1. pose proof (Hpts _ Cwin) as P2.
    unfold scenario_points in P1, P2. simpl in P1, P2.
    destruct Hc as [[H _]|[(_ & _ & H)|[[H _]|((_ & H) & _)]]]; try lia. exact H.
Qed.

Lemma day2_eliminated_iff_no_row_qualifies_witness :
  0 <= 9 - (2 + 5 + 0)
  /\ (Day2.verdict (Day2.analyse 9 19 2 5 0) = Day2.Eliminated
      <-> Forall (fun row => Day2.makesDay2 row = false) (Day2.scenarioRows 9 19 2 5 0)).
Proof.
  split; [lia | apply (day2_eliminated_iff_no_row_qualifies 9 19 2 5 0); lia].
Defined.

(** X19. With [remaining >= 0] the verdict is "already qualified" exactly
    when every row of the scenario table reaches the threshold. *)
Theorem day2_already_in_iff_every_row_qualifies
  (totalRounds threshold currentWins currentLosses currentDraws : Z) :
  0 <= totalRounds - (currentWins + currentLosses + currentDraws) ->
  Day2.verdict (Day2.analyse totalRounds threshold currentWins currentLosses currentDraws)
  = Day2.AlreadyIn
  <-> Forall (fun row => Day2.makesDay2 row = true)
             (Day2.scenarioRows totalRounds threshold currentWins currentLosses
                                currentDraws).
Proof.
  intros Hrem.
  pose proof (day2_verdict_cases totalRounds threshold currentWins currentLosses
                                 currentDraws) as Hc.
  destruct (day2_corner_rows totalRounds currentWins currentLosses currentDraws Hrem)
    as (Close & _ & _).
  unfold Day2.getMatchPoints in Hc.
  rewrite Forall_forall. split.
  - intros Hv row Hin. apply In_day2_rows in Hin.
    destruct Hin as (sc & (Hs & Hw & Hl & Hd) & ->).
    rewrite day2_row_qualifies. unfold scenario_points.
    rewrite Hv in Hc.
    destruct Hc as [[Hin _]|[(_ & _ & H)|[[_ H]|(_ & _ & _ & [(H & _)|H])]]];
      try discriminate H. lia.
  - intros Hall.
    assert (threshold <= scenario_points currentWins currentDraws
                           (mkScenario 0 (totalRounds
                              - (currentWins + currentLosses + currentDraws)) 0)) as P.
    { rewrite <- day2_row_qualifies. apply Hall. apply In_day2_rows. eauto. }
    unfold scenario_points in P. simpl in P.
    destruct Hc as [[_ H]|[(H & _)|[[H _]|((H & _) & _)]]]; try lia. exact H.
Qed.

Lemma day2_already_in_iff_every_row_qualifies_witness :
  0 <= 9 - (7 + 0 + 0)
  /\ (Day2.verdict (Day2.analyse 9 19 7 0 0) = Day2.AlreadyIn
      <-> Forall (fun row => Day2.makesDay2 row = true) (Day2.scenarioRows 9 19 7 0 0)).
Proof.
  split; [lia | apply (day2_already_in_iff_every_row_qualifies 9 19 7 0 0); lia].
Defined.

(** X20. The messages that promise "after N wins the rest does not matter"
    are sound: under the verdicts "one more win" and "need N wins" with
    [canLoseRest], every row with at least [minWinsNeeded] extra wins
    reaches the threshold; under "need N wins" without [canLoseRest],
    [minWinsNeeded] wins followed by losses fall short. *)
Theorem day2_rest_is_free_when_promised
  (totalRounds threshold currentWins currentLosses currentDraws : Z) :
  let a := Day2.analyse totalRounds threshold currentWins currentLosses currentDraws in
  let m := Day2.minWinsNeeded a in
  (Day2.verdict a = Day2.OneMoreWin \/ Day2.verdict a = Day2.NeedWins m true ->
   Forall (fun row => currentWins + m <= Day2.finalW row -> Day2.makesDay2 row = true)
          (Day2.scenarioRows totalRounds threshold currentWins currentLosses currentDraws))
  /\ (Day2.verdict a = Day2.NeedWins m false ->
      Day2.getMatchPoints (currentWins + m) currentDraws < threshold).
Proof.
  cbv zeta.
  pose proof (day2_verdict_cases totalRounds threshold currentWins currentLosses
                                 currentDraws) as Hc.
  unfold Day2.getMatchPoints in *. split.
  - intros Hv.
    assert (threshold <= currentWins * 3 + currentDraws * 1
            + Day2.minWinsNeeded (Day2.analyse totalRounds threshold currentWins
                                               currentLosses currentDraws) * 3) as Hfree.
    { destruct Hc as [[_ H]|[(_ & _ & H)|[[_ H]|(_ & _ & Ec & [(H & _ & Et)|H])]]].
      1-3: destruct Hv as [Hv|Hv]; rewrite Hv in H; discriminate H.
      - apply Ec. exact Et.
      - destruct Hv as [Hv|Hv]; rewrite Hv in H; [discriminate H|].
        apply Ec. congruence. }
    apply Forall_forall. intros row Hin Hwins. apply In_day2_rows in Hin.
    destruct Hin as (sc & (Hs & Hw & Hl & Hd) & ->).
    rewrite day2_row_qualifies. unfold scenario_points.
    cbn [Day2.finalW Day2.scenarioRow] in Hwins. lia.
  - intros Hv.
    destruct Hc as [[_ H]|[(_ & _ & H)|[[_ H]|(_ & _ & Ec & [(H & _ & Et)|H])]]];
      try (rewrite Hv in H; discriminate H).
    rewrite Hv in H.
    assert (Day2.canLoseRest (Day2.analyse totalRounds threshold currentWins
                                           currentLosses currentDraws) = false) as Ef
      by congruence.
    apply Z.nle_gt. intros Hle. apply Bool.not_true_iff_false in Ef. apply Ef.
    apply Ec. lia.
Qed.

Lemma day2_rest_is_free_when_promised_witness :
  let a := Day2.analyse 8 18 5 1 0 in
  let m := Day2.minWinsNeeded a in
  Day2.verdict a = Day2.OneMoreWin
  /\ Forall (fun row => 5 + m <= Day2.finalW row -> Day2.makesDay2 row = true)
            (Day2.scenarioRows 8 18 5 1 0)
  /\ Day2.verdict (Day2.analyse 9 19 5 1 0)
     = Day2.NeedWins (Day2.minWinsNeeded (Day2.analyse 9 19 5 1 0)) false
  /\ Day2.getMatchPoints (5 + Day2.minWinsNeeded (Day2.analyse 9 19 5 1 0)) 0 < 19.
Proof.
  cbv zeta.
  assert (Day2.verdict (Day2.analyse 8 18 5 1 0) = Day2.OneMoreWin) as H1
    by (vm_compute; reflexivity).
  assert (Day2.verdict (Day2.analyse 9 19 5 1 0)
          = Day2.NeedWins (Day2.minWinsNeeded (Day2.analyse 9 19 5 1 0)) false) as H2
    by (vm_compute; reflexivity).
  split; [exact H1|]. split.
  - exact (proj1 (day2_rest_is_free_when_promised 8 18 5 1 0) (or_introl H1)).
  - split; [exact H2|].
    exact (proj2 (day2_rest_is_free_when_promised 9 19 5 1 0) H2).
Defined.

(** X21. A row of the Day 2 table carries the badge "Safe" or "Day 2"
    exactly when its points reach the threshold. *)
Theorem day2_status_marks_qualification (points threshold : Z) :
  (text (Day2.getDay2Status points threshold) = "Safe"%string
   \/ text (Day2.getDay2Status points threshold) = "Day 2"%string)
  <-> threshold <= points.
Proof.
  unfold Day2.getDay2Status. cbv zeta. rewrite !Z.geb_leb.
  destruct (Z.leb_spec 3 (points - threshold)); [simpl; split; [lia | auto]|].
  destruct (Z.leb_spec 0 (points - threshold)); [simpl; split; [lia | auto]|].
  split; [|lia].
  destruct (Z.leb_spec (-3) (points - threshold)), (Z.leb_spec (-6) (points - threshold));
    simpl; intros [E|E]; discriminate E.
Qed.

(** X22. The threshold hint names a record "W-L or better" exactly when
    both inputs are positive and the threshold is three times a number of
    wins that fits into the rounds; the record named then scores exactly
    the threshold and uses all rounds. *)
Theorem threshold_hint_names_exact_record (threshold totalRounds w l : Z) :
  Day2.updateThresholdHint threshold totalRounds = Day2.HintRecord threshold w l
  <-> (0 < threshold /\ 0 < totalRounds
       /\ Day2.getMatchPoints w 0 = threshold /\ w + l = totalRounds /\ 0 <= l).
Proof.
  unfold Day2.updateThresholdHint, Day2.getMatchPoints, Day2.ceil_third. cbv zeta.
  rewrite !Z.gtb_ltb, Z.geb_leb.
  destruct (Z.ltb_spec 0 threshold), (Z.ltb_spec 0 totalRounds); cbn [andb];
    try (split; [discriminate | lia]).
  assert (forall k, k * 3 = threshold -> - (- threshold / 3) = k) as Hdiv.
  { intros k <-. replace (- (k * 3)) with ((- k) * 3) by lia.
    rewrite Z.div_mul by lia. lia. }
  destruct (Z.leb_spec 0 (totalRounds - - (- threshold / 3)));
    destruct (Z.eqb_spec (- (- threshold / 3) * 3) threshold); cbn [andb].
  - split.
    + intros E. injection E as <- <-. lia.
    + intros (_ & _ & Ew & El & _). rewrite (Hdiv w ltac:(lia)). do 2 f_equal. lia.
  - split; [discriminate|]. intros (_ & _ & Ew & _). rewrite (Hdiv w ltac:(lia)) in n. lia.
  - split; [discriminate|]. intros (_ & _ & Ew & El & Hl).
    rewrite (Hdiv w ltac:(lia)) in H1. lia.
  - split; [discriminate|]. intros (_ & _ & Ew & _). rewrite (Hdiv w ltac:(lia)) in n. lia.
Qed.

(* ===================================================================== *)
(** ** Further properties: OMW% walk, record and tracker handlers *)
(* ===================================================================== *)

Lemma omw_walk_skips_null results totalRounds cumWins cumLosses acc :
  Tracker.omw_walk (List.filter Tracker.not_null results) totalRounds cumWins cumLosses acc
  = Tracker.omw_walk results totalRounds cumWins cumLosses acc.
Proof.
  revert cumWins cumLosses acc.
  induction results as [|[[| |]| |] rest IH]; intros cumWins cumLosses acc;
    cbn [List.filter Tracker.not_null Tracker.omw_walk]; rewrite ?IH; reflexivity.
Qed.

Lemma array_filter_skips_null (results : list cell) :
  Tracker.array_filter Tracker.not_null (List.filter Tracker.not_null results)
  = Tracker.array_filter Tracker.not_null results.
Proof.
  unfold Tracker.array_filter.
  induction results as [|[r| |] rest IH]; cbn [List.filter Tracker.not_null];
    rewrite ?IH; reflexivity.
Qed.

(** X23. Unplayed rounds are invisible to the OMW% estimate: removing the
    [null] slots from the sequence, wherever they are, gives the same
    result. *)
Theorem estimateOMW_skips_unplayed (results : list cell) (totalRounds : Z) :
  Tracker.estimateOMW results totalRounds
  = Tracker.estimateOMW (List.filter Tracker.not_null results) totalRounds.
Proof.
  unfold Tracker.estimateOMW.
  pose proof (array_filter_skips_null results) as E.
  rewrite E, omw_walk_skips_null.
  destruct (Tracker.array_filter Tracker.not_null results) as [|c cs] eqn:Ef.
  - destruct (length results =? 0)%nat,
             (length (List.filter Tracker.not_null results) =? 0)%nat; reflexivity.
  - destruct results as [|c0 rest]; [discriminate Ef|].
    destruct (List.filter Tracker.not_null (c0 :: rest)) as [|d ds]; [discriminate E|].
    reflexivity.
Qed.

Lemma length_omw_walk results totalRounds cumWins cumLosses acc :
  length (Tracker.omw_walk results totalRounds cumWins cumLosses acc)
  = (length acc + length (List.filter Tracker.not_null results))%nat.
Proof.
  revert cumWins cumLosses acc.
  induction results as [|[[| |]| |] rest IH]; intros cumWins cumLosses acc;
    cbn [List.filter Tracker.not_null Tracker.omw_walk length];
    rewrite ?IH, ?length_app; simpl; lia.
Qed.

Lemma record_fold_counts (a : list cell) (w0 l0 d0 : Z) :
  let '(w, l, d) :=
    fold_left (fun '(w, l, d) c =>
                 match c with
                 | Res W => (w + 1, l, d)
                 | Res L => (w, l + 1, d)
                 | Res D => (w, l, d + 1)
                 | _ => (w, l, d)
                 end) a (w0, l0, d0) in
  w0 <= w /\ l0 <= l /\ d0 <= d
  /\ w + l + d = w0 + l0 + d0 + Z.of_nat (length (List.filter is_result a)).
Proof.
  revert w0 l0 d0. induction a as [|c rest IH]; intros w0 l0 d0.
  - simpl. lia.
  - destruct c as [[| |]| |]; cbn [fold_left List.filter is_result].
    + specialize (IH (w0 + 1) l0 d0). destruct (fold_left _ rest _) as [[w l] d].
      cbn [length]. lia.
    + specialize (IH w0 (l0 + 1) d0). destruct (fold_left _ rest _) as [[w l] d].
      cbn [length]. lia.
    + specialize (IH w0 l0 (d0 + 1)). destruct (fold_left _ rest _) as [[w l] d].
      cbn [length]. lia.
    + apply IH.
    + apply IH.
Qed.

Lemma contiguous_results_are_not_null (a : list cell) :
  contiguous_prefix a = true ->
  List.filter is_result a = List.filter Tracker.not_null a.
Proof.
  induction a as [|[r| |] rest IH]; simpl; intros H; try discriminate; auto.
  - now rewrite IH.
  - clear IH. induction rest as [|c rest IH]; [reflexivity|].
    simpl in H. apply andb_prop in H. destruct H as [Hc H].
    destruct c; try discriminate. simpl. now apply IH.
Qed.

(** X24. On a tracker without gaps the record read by
    [getRecordFromTracker] has non-negative counts whose sum, the number
    of rounds played, is the number of rounds the OMW% estimate averages
    over. *)
Theorem tracker_record_counts_played_rounds (a : list cell) (totalRounds : Z) :
  contiguous_prefix a = true ->
  let '(w, l, d) := Tracker.getRecordFromTracker a in
  0 <= w /\ 0 <= l /\ 0 <= d
  /\ w + l + d = Z.of_nat (length (Tracker.omw_walk a totalRounds 0 0 [])).
Proof.
  intros Hc. pose proof (record_fold_counts a 0 0 0) as H.
  unfold Tracker.getRecordFromTracker.
  destruct (fold_left _ a (0, 0, 0)) as [[w l] d].
  rewrite length_omw_walk, <- contiguous_results_are_not_null by exact Hc.
  simpl length. lia.
Qed.

Lemma tracker_record_counts_played_rounds_witness :
  contiguous_prefix [Res W; Res D; Res L; Empty; Empty] = true
  /\ (let '(w, l, d) := Tracker.getRecordFromTracker [Res W; Res D; Res L; Empty; Empty] in
      0 <= w /\ 0 <= l /\ 0 <= d
      /\ w + l + d
         = Z.of_nat (length (Tracker.omw_walk [Res W; Res D; Res L; Empty; Empty] 5 0 0 []))).
Proof.
  split; [reflexivity|].
  exact (tracker_record_counts_played_rounds [Res W; Res D; Res L; Empty; Empty] 5 eq_refl).
Defined.

Lemma buildRoundTracker_makes_built (st : Tracker.TrackerState) :
  tracker_built (Tracker.buildRoundTracker st).
Proof.
  unfold tracker_built, Tracker.buildRoundTracker.
  destruct (Z.ltb_spec (Tracker.players st) 2); [left; exact H|].
  right. cbn [Tracker.roundResults Tracker.players]. apply length_resize.
Qed.

(** X25. Every handler leaves the array at the length the player count
    asks for (or unchanged when fewer than two players are entered), and
    rebuilding a second time changes nothing. *)
Theorem handlers_keep_tracker_built
  (st : Tracker.TrackerState) (round : nat) (result : RoundResult) :
  tracker_built (Tracker.buildRoundTracker st)
  /\ tracker_built (Tracker.onRoundBtnClick st round result)
  /\ tracker_built (Tracker.onRoundClear st round)
  /\ Tracker.buildRoundTracker (Tracker.buildRoundTracker st)
     = Tracker.buildRoundTracker st.
Proof.
  repeat split; try apply buildRoundTracker_makes_built.
  apply buildRoundTracker_built, buildRoundTracker_makes_built.
Qed.

Lemma onRoundClear_closed (st : Tracker.TrackerState) (round : nat) :
  tracker_built st ->
  Tracker.onRoundClear st round
  = Tracker.mkTracker
      (take round (Tracker.roundResults st)
       ++ replicate (length (Tracker.roundResults st) - round) Empty)
      (Tracker.players st).
Proof.
  intros Hb. unfold Tracker.onRoundClear. cbv zeta. rewrite clear_loop_closed.
  apply buildRoundTracker_built.
  destruct Hb as [Hp|Hlen]; [left; exact Hp|]. right.
  cbn [Tracker.roundResults Tracker.players].
  rewrite length_app, length_take, length_replicate. lia.
Qed.

(** X26. On a built tracker, clearing round [r] keeps the rounds before
    [r], empties every slot from [r] on, keeps the length, and clearing
    the same round again changes nothing. *)
Theorem onRoundClear_effect (st : Tracker.TrackerState) (round : nat) :
  tracker_built st ->
  let cleared := Tracker.onRoundClear st round in
  Tracker.roundResults cleared
  = take round (Tracker.roundResults st)
    ++ replicate (length (Tracker.roundResults st) - round) Empty
  /\ length (Tracker.roundResults cleared) = length (Tracker.roundResults st)
  /\ Tracker.onRoundClear cleared round = cleared.
Proof.
  intros Hb. cbv zeta. rewrite onRoundClear_closed by exact Hb.
  cbn [Tracker.roundResults]. split; [reflexivity|].
  assert (length (take round (Tracker.roundResults st)
                  ++ replicate (length (Tracker.roundResults st) - round) Empty)
          = length (Tracker.roundResults st)) as Hlen.
  { rewrite length_app, length_take, length_replicate. lia. }
  split; [exact Hlen|].
  rewrite onRoundClear_closed.
  - cbn [Tracker.roundResults Tracker.players]. f_equal. rewrite Hlen.
    rewrite take_app, length_take.
    destruct (Nat.le_gt_cases round (length (Tracker.roundResults st))) as [Hle|Hgt].
    + rewrite take_take, Nat.min_l by lia.
      replace (round - Nat.min round (length (Tracker.roundResults st)))%nat with O by lia.
      now rewrite take_0, app_nil_r.
    + replace (length (Tracker.roundResults st) - round)%nat with O by lia.
      simpl. rewrite !app_nil_r, take_nil, app_nil_r.
      rewrite take_take. f_equal. lia.
  - destruct Hb as [Hp|Hl]; [left; exact Hp|]. right.
    cbn [Tracker.roundResults Tracker.players]. now rewrite Hlen.
Qed.

Lemma onRoundClear_effect_witness :
  let st := Tracker.mkTracker [Res W; Res L; Res D] 8 in
  tracker_built st
  /\ Tracker.roundResults (Tracker.onRoundClear st 1) = [Res W; Empty; Empty]
  /\ Tracker.onRoundClear (Tracker.onRoundClear st 1) 1 = Tracker.onRoundClear st 1.
Proof.
  cbv zeta.
  assert (tracker_built (Tracker.mkTracker [Res W; Res L; Res D] 8)) as Hb
    by (right; reflexivity).
  split; [exact Hb|].
  destruct (onRoundClear_effect (Tracker.mkTracker [Res W; Res L; Res D] 8) 1 Hb)
    as (E & _ & I).
  split; [exact E | exact I].
Defined.

Lemma unplayed_drop (a : list cell) (k : nat) :
  forallb unplayed a = true -> forallb unplayed (drop k a) = true.
Proof.
  revert k. induction a as [|c rest IH]; intros [|k] H; simpl in *; auto.
  apply andb_prop in H. destruct H as [_ H]. now apply IH.
Qed.

Lemma unplayed_is_replicate (a : list cell) :
  forallb unplayed a = true -> a = replicate (length a) Empty.
Proof.
  induction a as [|c rest IH]; simpl; intros H; [reflexivity|].
  apply andb_prop in H. destruct H as [Hc H].
  destruct c; try discriminate. f_equal. now apply IH.
Qed.

Lemma contiguous_tail_unplayed (a : list cell) (r : nat) :
  contiguous_prefix a = true -> a !! r = Some Empty ->
  forallb unplayed (drop r a) = true.
Proof.
  revert r. induction a as [|c rest IH]; intros r Hc Hr; [discriminate Hr|].
  destruct r as [|r].
  - simpl in Hr. injection Hr as ->. simpl in *. exact Hc.
  - change ((c :: rest) !! S r) with (rest !! r) in Hr.
    change (drop (S r) (c :: rest)) with (drop r rest).
    destruct c as [x| |]; simpl in Hc; [| |discriminate].
    + now apply IH.
    + now apply unplayed_drop.
Qed.

(** X27. Entering a result into an unplayed round of a built tracker
    without gaps and then clearing that round restores the tracker
    exactly. *)
Theorem set_then_clear_restores
  (st : Tracker.TrackerState) (round : nat) (result : RoundResult) :
  tracker_built st ->
  contiguous_prefix (Tracker.roundResults st) = true ->
  Tracker.roundResults st !! round = Some Empty ->
  Tracker.onRoundClear (Tracker.onRoundBtnClick st round result) round = st.
Proof.
  intros Hb Hc Hr.
  assert (round < length (Tracker.roundResults st))%nat as Hlt
    by (apply lookup_lt_is_Some_1; eauto).
  assert (Tracker.onRoundBtnClick st round result
          = Tracker.mkTracker (<[round := Res result]> (Tracker.roundResults st))
                              (Tracker.players st)) as Eset.
  { unfold Tracker.onRoundBtnClick, Tracker.array_set.
    destruct (Nat.ltb_spec round (length (Tracker.roundResults st))); [|lia].
    apply buildRoundTracker_built.
    destruct Hb as [Hp|Hl]; [left; exact Hp|]. right.
    cbn [Tracker.roundResults Tracker.players]. now rewrite length_insert. }
  rewrite Eset, onRoundClear_closed.
  - cbn [Tracker.roundResults Tracker.players].
    rewrite length_insert, take_insert_ge by lia.
    pose proof (contiguous_tail_unplayed _ _ Hc Hr) as Htail.
    apply unplayed_is_replicate in Htail. rewrite length_drop in Htail.
    rewrite <- Htail, take_drop. now destruct st.
  - destruct Hb as [Hp|Hl]; [left; exact Hp|]. right.
    cbn [Tracker.roundResults Tracker.players]. now rewrite length_insert.
Qed.

Lemma set_then_clear_restores_witness :
  let st := Tracker.mkTracker [Res W; Res L; Empty] 8 in
  tracker_built st
  /\ contiguous_prefix (Tracker.roundResults st) = true
  /\ Tracker.roundResults st !! 2%nat = Some Empty
  /\ Tracker.onRoundClear (Tracker.onRoundBtnClick st 2 D) 2 = st.
Proof.
  cbv zeta.
  assert (tracker_built (Tracker.mkTracker [Res W; Res L; Empty] 8)) as Hb
    by (right; reflexivity).
  split; [exact Hb|]. split; [reflexivity|]. split; [reflexivity|].
  exact (set_then_clear_restores (Tracker.mkTracker [Res W; Res L; Empty] 8) 2 D
           Hb eq_refl eq_refl).
Defined.

(* ===================================================================== *)
(** ** Further properties: the highlighted row of the thresholds table *)
(* ===================================================================== *)

Lemma In_generateAllRecords rounds rec :
  In rec (Script.generateAllRecords rounds)
  <-> valid_scenario rounds (record_scenario rec).
Proof.
  rewrite <- In_scenario_table.
  destruct (generateAllRecords_closed rounds) as [<- _].
  rewrite in_map_iff. split.
  - intros H. exists rec. auto.
  - intros [r' [E H]]. destruct rec, r'. unfold record_scenario in E. simpl in E.
    injection E as -> -> ->. exact H.
Qed.

(** X28. The thresholds table highlights a row exactly when that row is
    the current record, and it contains such a row exactly when the
    current record is a complete record of the tournament (non-negative
    counts that add up to [totalRounds]); for a tournament in progress no
    row is highlighted. *)
Theorem current_row_highlight
  (numPlayers totalRounds currentWins currentLosses currentDraws : Z) :
  let isCurrent rec :=
    snd (Script.thresholdRow numPlayers totalRounds currentWins currentLosses
                             currentDraws rec) in
  Forall (fun rec =>
            isCurrent rec = true <-> rec = mkRecord currentWins currentLosses currentDraws)
         (Script.generateAllRecords totalRounds)
  /\ (Exists (fun rec => isCurrent rec = true) (Script.generateAllRecords totalRounds)
      <-> (currentWins + currentLosses + currentDraws = totalRounds
           /\ 0 <= currentWins /\ 0 <= currentLosses /\ 0 <= currentDraws)).
Proof.
  cbv zeta.
  assert (forall rec,
            snd (Script.thresholdRow numPlayers totalRounds currentWins currentLosses
                                     currentDraws rec) = true
            <-> rec = mkRecord currentWins currentLosses currentDraws) as Hcur.
  { intros [w l d]. unfold Script.thresholdRow. cbn [snd recWins recLosses recDraws].
    rewrite !Bool.andb_true_iff, !Z.eqb_eq. split.
    - intros [[-> ->] ->]. reflexivity.
    - intros E. injection E as -> -> ->. auto. }
  split.
  - apply Forall_forall. intros rec _. apply Hcur.
  - rewrite Exists_exists. split.
    + intros [rec [Hin Hc]]. apply Hcur in Hc. subst rec.
      apply In_generateAllRecords in Hin. exact Hin.
    + intros Hv. exists (mkRecord currentWins currentLosses currentDraws). split.
      * apply In_generateAllRecords. exact Hv.
      * apply Hcur. reflexivity.
Qed.
